(** * The users -> posts -> comments pipeline of [index.js]

    A shallow embedding of the RxJS chain [flow$] and of its subscriber,
    together with the properties the specification states about it.

    What is modelled, and how:
    - JSON payloads are untyped JavaScript values ([JsVal]); property reads,
      [Array.prototype.map] and template-literal string conversion behave as
      in JavaScript, including the [TypeError]s they raise.
    - A callback is a computation [Js X] that performs console and network
      events in order and then returns or throws.
    - An observable is the sequence of what it does once subscribed: events
      and [Next] notifications, closed by completion or by an error.
    - The network is a function [Env] from the requested URL to the settled
      promise [fetch] returns for it.

    Every source of the program is a promise, which settles once; microtask
    scheduling is therefore abstracted away and a run is the sequence of its
    events in program order. Promises that never settle are not modelled. *)

From Stdlib Require Import List String Ascii ZArith Lia Bool.
From Stdlib Require Import DecimalString DecimalZ.
Import ListNotations.
Open Scope string_scope.
Set Implicit Arguments.
#[local] Set Warnings "-register-all".

(** ** JavaScript values *)

(** The values [JSON.parse] can produce, plus [undefined] (the result of
    reading an absent property or an index out of range). [JNum n] is the
    number the integer literal [n] of a body parses to: the double nearest
    to [n]. An object is the list of its own properties. *)
Inductive JsVal : Type :=
| JUndefined
| JNull
| JBool (b : bool)
| JNum (n : Z)
| JStr (s : string)
| JArr (elems : list JsVal)
| JObj (props : list (string * JsVal)).

(** Errors as the program sees them: a class and the [message] property.
    [PlainError] is [new Error(msg)], [TypeError] is raised by the engine
    (its messages are worded as V8 words them), [HostError] is a rejection by
    the host: a network failure, a body that does not parse. *)
Inductive ErrorClass := PlainError | TypeError | HostError.

Record JsError := mkError { err_class : ErrorClass; message : string }.

Definition decimal (n : Z) : string := NilZero.string_of_int (Z.to_int n).

(** ** Numbers, as a template literal prints them

    A number of a parsed body is a double. An integer below [2^53] in
    magnitude is one exactly; a larger one is rounded to 53 significant
    bits, and what is printed is the shortest decimal that reads back as
    that double, in exponent notation from [10^21] on. *)

(** The double nearest to a positive integer, a tie going to the even
    significand; [None] is [Infinity], from [2^1024 - 2^970] on. *)
Definition nearest_double (v : Z) : option Z :=
  let shift := (Z.log2 v - 52)%Z in
  if (shift <=? 0)%Z then Some v
  else
    let q := (v / 2 ^ shift)%Z in
    let r := (v mod 2 ^ shift)%Z in
    let half := (2 ^ (shift - 1))%Z in
    let q' := if (half <? r)%Z || ((r =? half)%Z && Z.odd q) then (q + 1)%Z else q in
    let d := (q' * 2 ^ shift)%Z in
    if (d <? 2 ^ 1024)%Z then Some d else None.

Definition rounds_to (x v : Z) : bool :=
  match nearest_double v with
  | Some d => (d =? x)%Z
  | None => false
  end.

(** The number of decimal digits of a positive integer, less one. *)
Fixpoint log10_aux (fuel : nat) (x : Z) : nat :=
  match fuel with
  | O => O
  | S f => if (x <? 10)%Z then O else S (log10_aux f (x / 10)%Z)
  end.

Definition log10 (x : Z) : nat := log10_aux (Z.to_nat (Z.log2 x)) x.

(** The shortest decimal that reads back as the double [x]: the integer with
    the fewest significant digits that rounds to [x], the nearest to [x] of
    two with as many digits, the one of even last digit on a tie. [e] is the
    number of trailing zeros tried, from the number of digits of [x] less one
    down to none. *)
Fixpoint shortest (e : nat) (x : Z) : Z :=
  let p := (10 ^ Z.of_nat e)%Z in
  let lo := (x / p * p)%Z in
  let hi := (lo + p)%Z in
  match rounds_to x lo, rounds_to x hi with
  | true, true =>
      if (x - lo <? hi - x)%Z then lo
      else if (hi - x <? x - lo)%Z then hi
      else if Z.even (lo / p)%Z then lo else hi
  | true, false => lo
  | false, true => hi
  | false, false =>
      match e with
      | O => x
      | S e' => shortest e' x
      end
  end.

Fixpoint strip_zeros (s : string) : string :=
  match s with
  | EmptyString => EmptyString
  | String c rest =>
      match strip_zeros rest with
      | EmptyString => if Ascii.eqb c "0" then EmptyString else String c EmptyString
      | t => String c t
      end
  end.

(** Exponent notation: the significant digits, a point after the first if
    there are more, and the decimal exponent. *)
Definition exponential (v : Z) : string :=
  match strip_zeros (decimal v) with
  | EmptyString => "0"
  | String c EmptyString => String c ("e+" ++ decimal (Z.of_nat (log10 v)))
  | String c rest => String c ("." ++ rest ++ "e+" ++ decimal (Z.of_nat (log10 v)))
  end.

(** [Number::toString] of the number the integer [n] parses to. *)
Definition Number_toString (n : Z) : string :=
  if (n =? 0)%Z then "0"
  else
    let sign := if (n <? 0)%Z then "-" else "" in
    match nearest_double (Z.abs n) with
    | None => sign ++ "Infinity"
    | Some x =>
        let v := shortest (log10 x) x in
        sign ++ (if (v <? 10 ^ 21)%Z then decimal v else exponential v)
    end.

Fixpoint own_property (key : string) (props : list (string * JsVal)) : option JsVal :=
  match props with
  | [] => None
  | (k, v) :: rest => if String.eqb k key then Some v else own_property key rest
  end.

(** [ToString] of a value, as a template literal applies it: a number prints
    as [Number_toString] has it; [None] is the
    [TypeError] raised when an object cannot be converted to a primitive:
    a parsed object whose own [toString] property shadows the inherited
    method (a JSON value is never callable, and the inherited [valueOf]
    returns the object itself). An array prints its elements joined by
    commas, [null] and [undefined] elements as the empty string. *)
Fixpoint ToString (v : JsVal) : option string :=
  match v with
  | JUndefined => Some "undefined"
  | JNull => Some "null"
  | JBool true => Some "true"
  | JBool false => Some "false"
  | JNum n => Some (Number_toString n)
  | JStr s => Some s
  | JArr elems =>
      (fix join (l : list JsVal) : option string :=
         match l with
         | [] => Some ""
         | x :: rest =>
             let sx := match x with
                       | JUndefined | JNull => Some ""
                       | _ => ToString x
                       end in
             match sx, rest with
             | None, _ => None
             | Some s, [] => Some s
             | Some s, _ :: _ =>
                 match join rest with
                 | None => None
                 | Some t => Some (s ++ "," ++ t)
                 end
             end
         end) elems
  | JObj props =>
      match own_property "toString" props with
      | Some _ => None
      | None => Some "[object Object]"
      end
  end.

(** ** Callbacks: events, then a return or a throw *)

(** What a run does to the outside world, in order. *)
Inductive Event : Type :=
| Fetch (url : string)                 (* [_fetch(url)]: one GET is issued *)
| ReadJson                             (* [res.json()]: the body is read and parsed *)
| ConsoleLog (line : string)           (* [console.log(line)] *)
| ConsoleError (label msg : string).   (* [console.error(label, msg)] *)

Inductive Completion (X : Type) : Type :=
| Return (x : X)
| Throw (e : JsError).
Arguments Throw {X} e.

Definition Js (X : Type) : Type := (list Event * Completion X)%type.

Definition ret {X} (x : X) : Js X := ([], Return x).
Definition throw {X} (e : JsError) : Js X := ([], Throw e).

Definition bind {X Y} (c : Js X) (k : X -> Js Y) : Js Y :=
  match c with
  | (evs, Return x) => let (evs', r) := k x in ((evs ++ evs')%list, r)
  | (evs, Throw e) => (evs, Throw e)
  end.

Notation "x <- c ;; k" := (bind c (fun x => k))
  (at level 61, c at next level, right associativity).
Notation "c ;;; k" := (bind c (fun _ => k))
  (at level 61, right associativity).

Definition console_log (line : string) : Js unit := ([ConsoleLog line], Return tt).
Definition console_error (label msg : string) : Js unit :=
  ([ConsoleError label msg], Return tt).

Definition type_error {X} (msg : string) : Js X := throw (mkError TypeError msg).

(** [${v}] inside a template literal. *)
Definition str (v : JsVal) : Js string :=
  match ToString v with
  | Some s => ret s
  | None => type_error "Cannot convert object to primitive value"
  end.

(** Reading property [key] of a value that has properties: an own property
    of an object, [undefined] otherwise. The keys the program reads ([id],
    [name], [email], [title]) are defined by no prototype of a parsed value. *)
Definition field (v : JsVal) (key : string) : JsVal :=
  match v with
  | JObj props => match own_property key props with Some x => x | None => JUndefined end
  | _ => JUndefined
  end.

(** [v.key]: reading a property of [undefined] or [null] throws. *)
Definition get (v : JsVal) (key : string) : Js JsVal :=
  match v with
  | JUndefined =>
      type_error ("Cannot read properties of undefined (reading '" ++ key ++ "')")
  | JNull =>
      type_error ("Cannot read properties of null (reading '" ++ key ++ "')")
  | _ => ret (field v key)
  end.

Fixpoint mapM {X Y} (f : X -> Js Y) (l : list X) : Js (list Y) :=
  match l with
  | [] => ret []
  | x :: rest => y <- f x ;; ys <- mapM f rest ;; ret (y :: ys)
  end.

(** [v.map(f)] on a parsed payload named [var] in the source: only an array
    has a callable [map]. *)
Definition array_map {Y} (var : string) (f : JsVal -> Js Y) (v : JsVal) : Js (list Y) :=
  match v with
  | JArr elems => mapM f elems
  | JUndefined => type_error "Cannot read properties of undefined (reading 'map')"
  | JNull => type_error "Cannot read properties of null (reading 'map')"
  | _ => type_error (var ++ ".map is not a function")
  end.

(** ** Observables and the RxJS operators the program uses

    An observable is what it does from subscription on: events and values in
    order, then completion or an error. The operators are those of RxJS on
    such streams; a callback that throws turns into the error notification
    of its operator, and nothing upstream runs after an error. *)

Inductive Item (A : Type) : Type :=
| Eff (e : Event)
| Next (a : A).
Arguments Eff {A} e.

Inductive End : Type :=
| Complete
| Failed (e : JsError).

Record Observable (A : Type) : Type := mkObs { items : list (Item A); ending : End }.

Inductive Promise (A : Type) : Type :=
| Fulfilled (a : A)
| Rejected (e : JsError).
Arguments Rejected {A} e.

Definition effs {A} (evs : list Event) : list (Item A) := List.map Eff evs.

Module Rx.

(** [of(a)]; [of] is reserved in Rocq. *)
Definition of_ {A} (a : A) : Observable A := mkObs [Next a] Complete.

Definition throwError {A} (e : JsError) : Observable A := mkObs [] (Failed e).

Definition from {A} (p : Promise A) : Observable A :=
  match p with
  | Fulfilled a => mkObs [Next a] Complete
  | Rejected e => mkObs [] (Failed e)
  end.

(** Subscribing to what a callback returns: its events happen first; a
    throw inside an operator's callback becomes an error notification. *)
Definition inner {B} (c : Js (Observable B)) : Observable B :=
  match c with
  | (evs, Return o) => mkObs (effs evs ++ items o)%list (ending o)
  | (evs, Throw e) => mkObs (effs evs) (Failed e)
  end.

(** The common core of the value operators: each upstream value is handed
    to [k] and replaced by what [k] produces; the first error ends the
    stream and nothing upstream runs after it. *)
Fixpoint each {A B} (k : A -> Observable B) (l : list (Item A)) (e : End)
  : Observable B :=
  match l with
  | [] => mkObs [] e
  | Eff ev :: rest =>
      let o := each k rest e in mkObs (Eff ev :: items o) (ending o)
  | Next a :: rest =>
      let o := k a in
      match ending o with
      | Complete =>
          let o' := each k rest e in mkObs (items o ++ items o')%list (ending o')
      | Failed err => mkObs (items o) (Failed err)
      end
  end.

Definition map {A B} (f : A -> Js B) (src : Observable A) : Observable B :=
  each (fun a => inner (b <- f a ;; ret (of_ b))) (items src) (ending src).

Definition tap {A} (f : A -> Js unit) (src : Observable A) : Observable A :=
  each (fun a => inner (f a ;;; ret (of_ a))) (items src) (ending src).

(** Every inner observable of this program has settled before its outer
    source can emit again, so no inner subscription is ever superseded. *)
Definition switchMap {A B} (f : A -> Js (Observable B)) (src : Observable A)
  : Observable B :=
  each (fun a => inner (f a)) (items src) (ending src).

Definition catchError {A} (h : JsError -> Js (Observable A)) (src : Observable A)
  : Observable A :=
  match ending src with
  | Complete => src
  | Failed e => let o := inner (h e) in mkObs (items src ++ items o)%list (ending o)
  end.

(** The callback runs once the stream has ended, whichever way it ended. *)
Definition finalize {A} (cb : Js unit) (src : Observable A) : Observable A :=
  mkObs (items src ++ effs (fst cb))%list (ending src).

End Rx.

Notation "src |> op" := (op src) (at level 62, left associativity, only parsing).

(** [subscribe(next)] with a next-callback only. The callback is called on
    every value; an exception it throws, and an error notification (there is
    no error callback), are reported to the host after the run: they never
    reach the code that called [subscribe]. *)
Record Run (A : Type) : Type := mkRun {
  trace : list Event;        (* everything the run did, in order *)
  received : list A;         (* the values handed to the subscriber *)
  uncaught : list JsError    (* errors reported to the host *)
}.

Fixpoint deliver {A} (next : A -> Js unit) (l : list (Item A)) (e : End) : Run A :=
  match l with
  | [] => mkRun [] [] (match e with Complete => [] | Failed err => [err] end)
  | Eff ev :: rest =>
      let r := deliver next rest e in mkRun (ev :: trace r) (received r) (uncaught r)
  | Next a :: rest =>
      let r := deliver next rest e in
      match next a with
      | (evs, Return _) => mkRun (evs ++ trace r)%list (a :: received r) (uncaught r)
      | (evs, Throw err) =>
          mkRun (evs ++ trace r)%list (a :: received r) (err :: uncaught r)
      end
  end.

Definition subscribe {A} (next : A -> Js unit) (src : Observable A) : Run A :=
  deliver next (items src) (ending src).

(** ** The network *)

(** A response: its status and what [res.json()] settles to. *)
Record Response : Type := mkResponse { status : Z; body : Promise JsVal }.

(** [res.ok]: the status is in the range 200-299. *)
Definition ok (res : Response) : bool :=
  (200 <=? status res)%Z && (status res <=? 299)%Z.

(** What [fetch(url)] settles to, for every URL. The three URLs of a run are
    pairwise distinct and each is requested at most once. *)
Definition Env : Type := string -> Promise Response.

(** ** The data of the pipeline *)

(** The projected records. Their fields hold whatever the payload held:
    the program copies them without checking them. *)
Record User : Type := mkUser { user_id : JsVal; user_name : JsVal; user_email : JsVal }.
Record Post : Type := mkPost { post_id : JsVal; post_title : JsVal }.
Record Comment : Type :=
  mkComment { comment_id : JsVal; comment_name : JsVal; comment_email : JsVal }.

(** [{ user, posts }], the value between the two dependent stages. *)
Record UserPosts : Type := mkUserPosts { up_user : User; up_posts : list Post }.

Record PipelineResult : Type :=
  mkResult { user : User; post : Post; comments : list Comment }.

(** [(u) => ({ id: u.id, name: u.name, email: u.email })] *)
Definition projectUser (u : JsVal) : Js User :=
  i <- get u "id" ;; n <- get u "name" ;; e <- get u "email" ;;
  ret (mkUser i n e).

(** [(p) => ({ id: p.id, title: p.title })] *)
Definition projectPost (p : JsVal) : Js Post :=
  i <- get p "id" ;; t <- get p "title" ;;
  ret (mkPost i t).

(** [(c) => ({ id: c.id, name: c.name, email: c.email })] *)
Definition projectComment (c : JsVal) : Js Comment :=
  i <- get c "id" ;; n <- get c "name" ;; e <- get c "email" ;;
  ret (mkComment i n e).

Definition base : string := "https://jsonplaceholder.typicode.com".

Definition users_url : string := base ++ "/users".
Definition posts_url (userId : string) : string := base ++ "/users/" ++ userId ++ "/posts".
Definition comments_url (postId : string) : string :=
  base ++ "/posts/" ++ postId ++ "/comments".

(** The console lines of the checkpoints. *)
Definition users_line (n : nat) : string :=
  "👥 Usuarios recibidos: " ++ decimal (Z.of_nat n).
Definition user_line (i n e : string) : string :=
  "➡️  Usuario seleccionado: [" ++ i ++ "] " ++ n ++ " <" ++ e ++ ">".
Definition posts_line (n : nat) : string :=
  "📝 Publicaciones del usuario: " ++ decimal (Z.of_nat n).
Definition post_line (i t : string) : string :=
  "➡️  Primera publicación: [" ++ i ++ "] " ++ t.
Definition error_label : string := "❌ Error en la cadena:".
Definition finalize_line : string := "✅ Flujo completado (finalize).".

Definition no_users : JsError := mkError PlainError "No hay usuarios disponibles.".
Definition no_posts : JsError := mkError PlainError "El usuario no tiene publicaciones.".

(** The lines of the result summary. [nl] is the line feed of ['\n']. *)
Definition nl : string := String (ascii_of_nat 10) EmptyString.
Definition header_line : string := nl ++ "===== RESULTADO FORMATEADO =====".
Definition summary_user_line (i n e : string) : string :=
  "Usuario: [" ++ i ++ "] " ++ n ++ " <" ++ e ++ ">".
Definition summary_post_line (i t : string) : string :=
  "Publicación: [" ++ i ++ "] " ++ t.
Definition summary_count_line (n : nat) : string :=
  "Comentarios recibidos: " ++ decimal (Z.of_nat n).
Definition summary_comment_line (i n e : string) : string :=
  "Primer comentario: [" ++ i ++ "] " ++ n ++ " <" ++ e ++ ">".
Definition footer_line : string := "================================" ++ nl.

(** [new Error(`HTTP ${res.status} en ${url}`)] *)
Definition http_error (res : Response) (url : string) : JsError :=
  mkError PlainError ("HTTP " ++ decimal (status res) ++ " en " ++ url).

(** ** The program *)

Section Program.

Variable env : Env.

(** Lines 5-14 pick the [fetch] of the host, or exit when there is none: a
    run is an execution that has one. Calling it issues the request. *)
Definition _fetch (url : string) : Js (Promise Response) :=
  ([Fetch url], Return (env url)).

Definition json (res : Response) : Js (Promise JsVal) :=
  ([ReadJson], Return (body res)).

Definition httpGetJson (url : string) : Js (Observable JsVal) :=
  p <- _fetch url ;;
  ret (Rx.from p |>
       Rx.switchMap (fun res =>
         if negb (ok res) then
           ret (Rx.throwError (http_error res url))
         else
           b <- json res ;; ret (Rx.from b))).

Definition getUsers : Js (Observable (list User)) :=
  src <- httpGetJson users_url ;;
  ret (src |> Rx.map (fun users => array_map "users" projectUser users)).

Definition getUserPosts (userId : JsVal) : Js (Observable JsVal) :=
  uid <- str userId ;;
  httpGetJson (posts_url uid).

Definition getPostComments (postId : JsVal) : Js (Observable JsVal) :=
  pid <- str postId ;;
  httpGetJson (comments_url pid).

(** The callbacks of the chain, in the order of the source. *)

(** Line 53: [tap((users) => console.log(...users.length...))] *)
Definition log_users (users : list User) : Js unit :=
  console_log (users_line (List.length users)).

(** Line 56: [map((users) => users[0])]; [None] is [undefined]. *)
Definition first_user (users : list User) : Js (option User) :=
  ret (nth_error users 0).

(** Lines 57-62: the guard on the selected user, and its checkpoint. *)
Definition check_user (user : option User) : Js unit :=
  match user with
  | None => throw no_users
  | Some u =>
      i <- str (user_id u) ;; n <- str (user_name u) ;; e <- str (user_email u) ;;
      console_log (user_line i n e)
  end.

(** Lines 64-71: the posts of the selected user. *)
Definition posts_of (user : option User) : Js (Observable UserPosts) :=
  match user with
  | None => type_error "Cannot read properties of undefined (reading 'id')"
  | Some u =>
      src <- getUserPosts (user_id u) ;;
      ret (src |> Rx.map (fun posts =>
             ps <- array_map "posts" projectPost posts ;;
             ret (mkUserPosts u ps)))
  end.

(** Lines 73-75 *)
Definition log_posts (up : UserPosts) : Js unit :=
  console_log (posts_line (List.length (up_posts up))).

(** Lines 77-94: the comments of the first post. The result is an object,
    [Some] in the stream that [catchError] continues with [null]. *)
Definition comments_of (up : UserPosts) : Js (Observable (option PipelineResult)) :=
  match nth_error (up_posts up) 0 with
  | None => ret (Rx.throwError no_posts)
  | Some firstPost =>
      i <- str (post_id firstPost) ;; t <- str (post_title firstPost) ;;
      console_log (post_line i t) ;;;
      src <- getPostComments (post_id firstPost) ;;
      ret (src |> Rx.map (fun comments =>
             cs <- array_map "comments" projectComment comments ;;
             ret (Some (mkResult (up_user up) firstPost cs))))
  end.

(** Lines 97-100 *)
Definition recover (err : JsError) : Js (Observable (option PipelineResult)) :=
  console_error error_label (message err) ;;;
  ret (Rx.of_ None).

(** Lines 102-104 *)
Definition on_finalize : Js unit := console_log finalize_line.

(** Lines 52-62: [flow$] up to the selection of the user. *)
Definition selection : Js (Observable (option User)) :=
  src <- getUsers ;;
  ret (src
    |> Rx.tap log_users
    |> Rx.map first_user
    |> Rx.tap check_user).

(** Lines 52-94: up to, and without, [catchError]. *)
Definition chain : Js (Observable (option PipelineResult)) :=
  src <- selection ;;
  ret (src
    |> Rx.switchMap posts_of
    |> Rx.tap log_posts
    |> Rx.switchMap comments_of).

(** Lines 52-100: up to, and without, [finalize]. *)
Definition recovered : Js (Observable (option PipelineResult)) :=
  src <- chain ;;
  ret (src |> Rx.catchError recover).

(** Lines 52-105: [flow$]. *)
Definition flow : Js (Observable (option PipelineResult)) :=
  src <- recovered ;;
  ret (src |> Rx.finalize on_finalize).

(** Lines 107-119: the callback handed to [subscribe]. *)
Definition on_result (result : option PipelineResult) : Js unit :=
  match result with
  | None => ret tt
  | Some r =>
      console_log header_line ;;;
      ui <- str (user_id (user r)) ;; un <- str (user_name (user r)) ;;
      ue <- str (user_email (user r)) ;;
      console_log (summary_user_line ui un ue) ;;;
      pi <- str (post_id (post r)) ;; pt <- str (post_title (post r)) ;;
      console_log (summary_post_line pi pt) ;;;
      console_log (summary_count_line (List.length (comments r))) ;;;
      match nth_error (comments r) 0 with
      | Some c =>
          ci <- str (comment_id c) ;; cn <- str (comment_name c) ;;
          ce <- str (comment_email c) ;;
          console_log (summary_comment_line ci cn ce)
      | None => ret tt
      end ;;;
      console_log footer_line
  end.

(** The whole program: [flow$] is built, then subscribed to. Building it
    only issues the users request and cannot throw. *)
Definition subscription : Run (option PipelineResult) :=
  match flow with
  | (evs, Return src) =>
      let r := subscribe on_result src in
      mkRun (evs ++ trace r)%list (received r) (uncaught r)
  | (evs, Throw e) => mkRun evs [] [e]
  end.

End Program.

(** ** Vocabulary of the statements *)

(** The GET of [url] succeeds: a response with a status in the 2xx range
    whose body parses to [payload]. *)
Definition responds (env : Env) (url : string) (payload : JsVal) : Prop :=
  exists res, env url = Fulfilled res /\ ok res = true /\ body res = Fulfilled payload.

Definition nullish (v : JsVal) : bool :=
  match v with
  | JUndefined | JNull => true
  | _ => false
  end.

(** A payload element whose properties can be read. *)
Definition readable (v : JsVal) : Prop := nullish v = false.

(** A value a template literal can print, and what it prints. *)
Definition text (v : JsVal) : string :=
  match ToString v with
  | Some s => s
  | None => ""
  end.

Definition printable (v : JsVal) : Prop := ToString v = Some (text v).

(** A payload element the user checkpoint can print, and one the post
    checkpoint can print. *)
Definition user_ok (u : JsVal) : Prop :=
  printable (field u "id") /\ printable (field u "name") /\ printable (field u "email").

Definition post_ok (p : JsVal) : Prop :=
  printable (field p "id") /\ printable (field p "title").

(** Payload elements typed as section 6 of the specification declares them:
    objects with an integer [id] and string [name], [email], [title]. *)
Definition typed_user (v : JsVal) : Prop :=
  exists props i n e,
    v = JObj props /\ own_property "id" props = Some (JNum i) /\
    own_property "name" props = Some (JStr n) /\
    own_property "email" props = Some (JStr e).

Definition typed_post (v : JsVal) : Prop :=
  exists props i t,
    v = JObj props /\ own_property "id" props = Some (JNum i) /\
    own_property "title" props = Some (JStr t).

(** The values a stream emits. *)
Fixpoint emitted {A} (l : list (Item A)) : list A :=
  match l with
  | [] => []
  | Eff _ :: rest => emitted rest
  | Next a :: rest => a :: emitted rest
  end.

(** The projections of section 3 of the specification. *)
Definition user_of (v : JsVal) : User :=
  mkUser (field v "id") (field v "name") (field v "email").
Definition post_of (v : JsVal) : Post :=
  mkPost (field v "id") (field v "title").
Definition comment_of (v : JsVal) : Comment :=
  mkComment (field v "id") (field v "name") (field v "email").

(** ** Single-shot streams and callbacks

    Every stream of the program either emits one value and completes, or
    fails without a value. [Shot P Q o] says so of [o], with [P] holding of
    the events on the way and [Q] of the value. *)

Inductive Shot {A} (P : Event -> Prop) (Q : A -> Prop) (o : Observable A) : Prop :=
| Emits evs a :
    o = mkObs (effs evs ++ [Next a])%list Complete -> Forall P evs -> Q a -> Shot P Q o
| Fails evs e :
    o = mkObs (effs evs) (Failed e) -> Forall P evs -> Shot P Q o.
Arguments Emits {A P Q o} evs a _ _ _.
Arguments Fails {A P Q o} evs e _ _.

(** A callback whose events satisfy [P] and whose result, if it returns,
    satisfies [Q]. *)
Definition Sat {X} (P : Event -> Prop) (Q : X -> Prop) (c : Js X) : Prop :=
  Forall P (fst c) /\ forall x, snd c = Return x -> Q x.

Definition any {X} : X -> Prop := fun _ => True.

(** ** Events and values of the stages *)

(** The events of the stages: requests, body reads and the four checkpoints. *)
Inductive stage_event : Event -> Prop :=
| ev_fetch url : stage_event (Fetch url)
| ev_read : stage_event ReadJson
| ev_users n : stage_event (ConsoleLog (users_line n))
| ev_user i n e : stage_event (ConsoleLog (user_line i n e))
| ev_posts n : stage_event (ConsoleLog (posts_line n))
| ev_post i t : stage_event (ConsoleLog (post_line i t)).

(** The lines of the result summary. *)
Inductive summary_event : Event -> Prop :=
| ev_header : summary_event (ConsoleLog header_line)
| ev_summary_user i n e : summary_event (ConsoleLog (summary_user_line i n e))
| ev_summary_post i t : summary_event (ConsoleLog (summary_post_line i t))
| ev_summary_count n : summary_event (ConsoleLog (summary_count_line n))
| ev_summary_comment i n e : summary_event (ConsoleLog (summary_comment_line i n e))
| ev_footer : summary_event (ConsoleLog footer_line).

(** A result whose three parts come from one another's requests. *)
Definition consistent (env : Env) (r : PipelineResult) : Prop :=
  exists u0 us p0 ps cs uid pid,
    responds env users_url (JArr (u0 :: us)) /\
    user r = user_of u0 /\
    ToString (user_id (user r)) = Some uid /\
    responds env (posts_url uid) (JArr (p0 :: ps)) /\
    post r = post_of p0 /\
    ToString (post_id (post r)) = Some pid /\
    responds env (comments_url pid) (JArr cs) /\
    comments r = List.map comment_of cs.

(** What holds of the value of each stage. *)
Definition users_from_payload (env : Env) (users : list User) : Prop :=
  exists raw, responds env users_url (JArr raw) /\ users = List.map user_of raw.

Definition first_of_payload (env : Env) (o : option User) : Prop :=
  exists raw, responds env users_url (JArr raw) /\
              o = nth_error (List.map user_of raw) 0.

Definition selected_user (env : Env) (o : option User) : Prop :=
  exists u0 us, responds env users_url (JArr (u0 :: us)) /\ o = Some (user_of u0).

Definition posts_of_user (env : Env) (up : UserPosts) : Prop :=
  exists u0 us uid praw,
    responds env users_url (JArr (u0 :: us)) /\
    up_user up = user_of u0 /\
    ToString (user_id (up_user up)) = Some uid /\
    responds env (posts_url uid) (JArr praw) /\
    up_posts up = List.map post_of praw.

Definition consistent_result (env : Env) (o : option PipelineResult) : Prop :=
  exists r, o = Some r /\ consistent env r.

Definition is_finalize (ev : Event) : bool :=
  match ev with
  | ConsoleLog line => String.eqb line finalize_line
  | _ => false
  end.

Definition is_console_error (ev : Event) : bool :=
  match ev with
  | ConsoleError _ _ => true
  | _ => false
  end.

(** How many times the finalization hook has reported. *)
Definition finalizations (t : list Event) : nat := List.length (List.filter is_finalize t).

(** What the host is told when the subscriber's callback ends. *)
Definition thrown {X} (c : Js X) : list JsError :=
  match snd c with
  | Return _ => []
  | Throw e => [e]
  end.

(** The run of a stream built by [c], subscribed to as soon as it is built. *)
Definition run_of (c : Js (Observable (option PipelineResult)))
  : Run (option PipelineResult) :=
  subscribe on_result (Rx.inner c).

(** The events of a run whose users and posts stages pass, up to the comments
    request: [us] and [ps] are the payload elements after the first, the
    strings are the printed fields of the selected user and post. *)
Definition checkpoints (us : list JsVal) (ui un ue : string)
    (ps : list JsVal) (pi pt : string) : list Event :=
  [Fetch users_url; ReadJson; ConsoleLog (users_line (S (List.length us)));
   ConsoleLog (user_line ui un ue);
   Fetch (posts_url ui); ReadJson; ConsoleLog (posts_line (S (List.length ps)));
   ConsoleLog (post_line pi pt);
   Fetch (comments_url pi)].

(** ** Concrete networks *)

Definition array_response (elems : list JsVal) : Promise Response :=
  Fulfilled (mkResponse 200 (Fulfilled (JArr elems))).

Definition status_response (st : Z) : Promise Response :=
  Fulfilled (mkResponse st (Fulfilled (JObj []))).

(** A network that answers the listed URLs as listed and any other with 404. *)
Definition network (table : list (string * Promise Response)) : Env := fun url =>
  match List.find (fun entry => String.eqb (fst entry) url) table with
  | Some entry => snd entry
  | None => status_response 404
  end.

Definition leanne : JsVal :=
  JObj [("id", JNum 1); ("name", JStr "Leanne"); ("email", JStr "a@b.com")].
Definition post_t1 : JsVal := JObj [("id", JNum 1); ("title", JStr "T1")].
Definition comment_c : JsVal :=
  JObj [("id", JNum 1); ("name", JStr "C"); ("email", JStr "c@d.com")].

(** The end-to-end scenarios of section 8 of the specification. *)
Definition scenario : Env :=
  network [(users_url, array_response [leanne]);
           (posts_url "1", array_response [post_t1]);
           (comments_url "1", array_response [comment_c])].

Definition scenario_no_users : Env := network [(users_url, array_response [])].

Definition user_two : JsVal :=
  JObj [("id", JNum 2); ("name", JStr "Ervin"); ("email", JStr "e@f.com")].

Definition scenario_no_posts : Env :=
  network [(users_url, array_response [user_two]);
           (posts_url "2", array_response [])].

Definition scenario_users_500 : Env := network [(users_url, status_response 500)].

(** Further networks: a failing posts request, a failing comments request,
    a post without comments, and the first scenario with one more URL that
    no run requests. *)
Definition scenario_posts_503 : Env :=
  network [(users_url, array_response [leanne]);
           (posts_url "1", status_response 503)].

Definition scenario_comments_404 : Env :=
  network [(users_url, array_response [leanne]);
           (posts_url "1", array_response [post_t1])].

Definition scenario_no_comments : Env :=
  network [(users_url, array_response [leanne]);
           (posts_url "1", array_response [post_t1]);
           (comments_url "1", array_response [])].

Definition scenario_extended : Env :=
  network [(users_url, array_response [leanne]);
           (posts_url "1", array_response [post_t1]);
           (comments_url "1", array_response [comment_c]);
           (posts_url "2", array_response [post_t1])].

(** ** Vocabulary of the further properties *)

(** The events of a stream, without its values. *)
Fixpoint effects {A} (l : list (Item A)) : list Event :=
  match l with
  | [] => []
  | Eff ev :: rest => ev :: effects rest
  | Next _ :: rest => effects rest
  end.

(** The URLs requested in a trace, in order. *)
Fixpoint requests (t : list Event) : list string :=
  match t with
  | [] => []
  | Fetch url :: rest => url :: requests rest
  | _ :: rest => requests rest
  end.

(** How many times a body was read. *)
Fixpoint body_reads (t : list Event) : nat :=
  match t with
  | [] => 0
  | ReadJson :: rest => S (body_reads rest)
  | _ :: rest => body_reads rest
  end.

(** An event that is not a request. *)
Definition quiet (ev : Event) : Prop :=
  match ev with
  | Fetch _ => False
  | _ => True
  end.

(** The stages that passed: the users stage selects the projection of [u0],
    the posts stage that of [p0], and the comments stage projects [cs]. *)
Definition users_stage_passed (env : Env) (u0 : JsVal) (us : list JsVal) : Prop :=
  responds env users_url (JArr (u0 :: us)) /\ Forall readable (u0 :: us) /\ user_ok u0.

Definition posts_stage_passed (env : Env) (u0 : JsVal) (us : list JsVal)
    (p0 : JsVal) (ps : list JsVal) : Prop :=
  users_stage_passed env u0 us /\
  responds env (posts_url (text (field u0 "id"))) (JArr (p0 :: ps)) /\
  Forall readable (p0 :: ps) /\ post_ok p0.

Definition succeeds (env : Env) (u0 : JsVal) (us : list JsVal)
    (p0 : JsVal) (ps cs : list JsVal) : Prop :=
  posts_stage_passed env u0 us p0 ps /\
  responds env (comments_url (text (field p0 "id"))) (JArr cs) /\
  Forall readable cs.

(** What holds of the value of each stage, with all that made it pass. *)
Definition users_read (env : Env) (users : list User) : Prop :=
  exists raw, responds env users_url (JArr raw) /\ Forall readable raw /\
              users = List.map user_of raw.

Definition first_read (env : Env) (o : option User) : Prop :=
  exists raw, responds env users_url (JArr raw) /\ Forall readable raw /\
              o = nth_error (List.map user_of raw) 0.

Definition user_selected (env : Env) (o : option User) : Prop :=
  exists u0 us, users_stage_passed env u0 us /\ o = Some (user_of u0).

Definition posts_read (env : Env) (up : UserPosts) : Prop :=
  exists u0 us praw,
    users_stage_passed env u0 us /\ up_user up = user_of u0 /\
    responds env (posts_url (text (field u0 "id"))) (JArr praw) /\
    Forall readable praw /\ up_posts up = List.map post_of praw.

Definition result_built (env : Env) (o : option PipelineResult) : Prop :=
  exists u0 us p0 ps cs,
    succeeds env u0 us p0 ps cs /\
    o = Some (mkResult (user_of u0) (post_of p0) (List.map comment_of cs)).

(** The shapes of the chain, by the stage that ended it: [checks] are the
    events of the chain, all but the requests named quiet. *)
Inductive ChainShape (env : Env) : Observable (option PipelineResult) -> Prop :=
| EndsAtUsers evs e :
    Forall quiet evs ->
    ChainShape env (mkObs (effs (Fetch users_url :: evs)) (Failed e))
| EndsAtPosts u0 us evs1 evs2 e :
    users_stage_passed env u0 us -> Forall quiet evs1 -> Forall quiet evs2 ->
    ChainShape env
      (mkObs (effs (Fetch users_url :: evs1 ++
                    Fetch (posts_url (text (field u0 "id"))) :: evs2)) (Failed e))
| EndsAtComments u0 us p0 ps evs1 evs2 evs3 e :
    posts_stage_passed env u0 us p0 ps ->
    Forall quiet evs1 -> Forall quiet evs2 -> Forall quiet evs3 ->
    ChainShape env
      (mkObs (effs (Fetch users_url :: evs1 ++
                    Fetch (posts_url (text (field u0 "id"))) :: evs2 ++
                    Fetch (comments_url (text (field p0 "id"))) :: evs3)) (Failed e))
| EndsWithResult u0 us p0 ps cs evs1 evs2 evs3 :
    succeeds env u0 us p0 ps cs ->
    Forall quiet evs1 -> Forall quiet evs2 -> Forall quiet evs3 ->
    ChainShape env
      (mkObs (effs (Fetch users_url :: evs1 ++
                    Fetch (posts_url (text (field u0 "id"))) :: evs2 ++
                    Fetch (comments_url (text (field p0 "id"))) :: evs3) ++
              [Next (Some (mkResult (user_of u0) (post_of p0) (List.map comment_of cs)))])
             Complete).

(** A comment the summary can print. *)
Definition comment_ok (c : JsVal) : Prop :=
  printable (field c "id") /\ printable (field c "name") /\ printable (field c "email").

Definition is_header (ev : Event) : bool :=
  match ev with
  | ConsoleLog line => String.eqb line header_line
  | _ => false
  end.

(** Lines 115-118: the end of the subscriber's callback, as [on_result] has
    it after the count line. *)
Definition summary_tail (cs : list Comment) : Js unit :=
  match nth_error cs 0 with
  | Some c =>
      ci <- str (comment_id c) ;; cn <- str (comment_name c) ;;
      ce <- str (comment_email c) ;;
      console_log (summary_comment_line ci cn ce)
  | None => ret tt
  end ;;;
  console_log footer_line.

(** Two payload elements the program cannot tell apart: both can be read,
    and they agree on the properties the program reads. *)
Definition same_read (v w : JsVal) : Prop :=
  readable v /\ readable w /\
  field v "id" = field w "id" /\ field v "name" = field w "name" /\
  field v "email" = field w "email" /\ field v "title" = field w "title".

(** Two answers the program cannot tell apart: the same answer, or two
    responses of the same status whose bodies are arrays of elements it
    cannot tell apart. *)
Definition alike (p q : Promise Response) : Prop :=
  p = q \/
  exists st l1 l2,
    p = Fulfilled (mkResponse st (Fulfilled (JArr l1))) /\
    q = Fulfilled (mkResponse st (Fulfilled (JArr l2))) /\
    Forall2 same_read l1 l2.

(** The first scenario with more in its payloads: further properties, in
    another order, and a second post. *)
Definition leanne_full : JsVal :=
  JObj [("username", JStr "Bret"); ("email", JStr "a@b.com"); ("id", JNum 1);
        ("address", JObj [("city", JStr "Gwenborough")]); ("name", JStr "Leanne")].

Definition post_t1_full : JsVal :=
  JObj [("userId", JNum 1); ("id", JNum 1); ("title", JStr "T1"); ("body", JStr "...")].

Definition comment_c_full : JsVal :=
  JObj [("postId", JNum 1); ("id", JNum 1); ("name", JStr "C");
        ("email", JStr "c@d.com"); ("body", JStr "...")].

Definition scenario_full : Env :=
  network [(users_url, array_response [leanne_full]);
           (posts_url "1", array_response [post_t1_full]);
           (comments_url "1", array_response [comment_c_full])].

(** A user whose [name] is an object with a [toString] property, and a post
    with such a [title]. *)
Definition user_shadowed : JsVal :=
  JObj [("id", JNum 7); ("name", JObj [("toString", JNull)]); ("email", JStr "s@t.org")].

Definition post_shadowed : JsVal := JObj [("id", JNum 3); ("title", JObj [("toString", JNull)])].

Definition scenario_user_shadowed : Env :=
  network [(users_url, array_response [user_shadowed])].

Definition scenario_post_shadowed : Env :=
  network [(users_url, array_response [leanne]);
           (posts_url "1", array_response [post_shadowed])].

(** The first scenario with a second user. *)
Definition scenario_two_users : Env :=
  network [(users_url, array_response [leanne; user_two]);
           (posts_url "1", array_response [post_t1]);
           (comments_url "1", array_response [comment_c])].

Definition scenario_other_second : Env :=
  network [(users_url, array_response [leanne; comment_c]);
           (posts_url "1", array_response [post_t1]);
           (comments_url "1", array_response [comment_c])].

(** The error of a template literal that cannot print a value. *)
Definition cannot_print : JsError :=
  mkError TypeError "Cannot convert object to primitive value".

(** A comment whose [id] is an object with a [toString] property, and the
    first scenario with that comment. *)
Definition comment_shadowed : JsVal :=
  JObj [("id", JObj [("toString", JStr "x")]); ("name", JStr "C")].

Definition scenario_shadowed : Env :=
  network [(users_url, array_response [leanne]);
           (posts_url "1", array_response [post_t1]);
           (comments_url "1", array_response [comment_shadowed])].

(** Further networks: one that cannot be reached, one whose users body does
    not parse, one whose users payload is not an array, one with a [null]
    after a well-formed first user. *)
Definition unreachable : Env := fun _ => Rejected (mkError HostError "fetch failed").

Definition scenario_bad_json : Env :=
  network [(users_url,
            Fulfilled (mkResponse 200
                         (Rejected (mkError HostError "Unexpected token < in JSON"))))].

Definition scenario_users_object : Env :=
  network [(users_url, Fulfilled (mkResponse 200 (Fulfilled (JObj [("users", JArr [])]))))].

Definition scenario_null_second : Env :=
  network [(users_url, array_response [leanne; JNull])].

(** A first user whose id, [2^60], is beyond the integers a double holds
    exactly, on a network that answers the posts request as the program
    words it. *)
Definition user_big_id : JsVal :=
  JObj [("id", JNum (2 ^ 60)); ("name", JStr "Big"); ("email", JStr "b@c.org")].

Definition scenario_big_id : Env :=
  network [(users_url, array_response [user_big_id]);
           (posts_url "1152921504606847000", array_response [])].

(** * Properties *)

#[local] Arguments decimal : simpl never.
#[local] Arguments users_url : simpl never.
#[local] Arguments posts_url : simpl never.
#[local] Arguments comments_url : simpl never.
#[local] Arguments users_line : simpl never.
#[local] Arguments user_line : simpl never.
#[local] Arguments posts_line : simpl never.
#[local] Arguments post_line : simpl never.
#[local] Arguments header_line : simpl never.
#[local] Arguments footer_line : simpl never.
#[local] Arguments summary_user_line : simpl never.
#[local] Arguments summary_post_line : simpl never.
#[local] Arguments summary_count_line : simpl never.
#[local] Arguments summary_comment_line : simpl never.
#[local] Arguments error_label : simpl never.
#[local] Arguments finalize_line : simpl never.
#[local] Arguments String.append : simpl never.

(** ** The model at work *)

Example ToString_array :
  ToString (JArr [JNum 1; JNull; JStr "a"; JArr [JNum (-3); JNum 0]]) = Some "1,,a,-3,0".
Proof. reflexivity. Qed.

Example ToString_object : ToString (JObj [("id", JNum 1)]) = Some "[object Object]".
Proof. reflexivity. Qed.

Example ToString_shadowed : ToString (JObj [("toString", JNum 1)]) = None.
Proof. reflexivity. Qed.

(** Numbers beyond [2^53] print as the double they are read as, and in
    exponent notation from [10^21] on. *)
Example Number_toString_doubles :
  Number_toString (2 ^ 53 - 1) = "9007199254740991" /\
  Number_toString (2 ^ 53 + 1) = "9007199254740992" /\
  Number_toString (2 ^ 60) = "1152921504606847000" /\
  Number_toString (10 ^ 21 - 1) = "1e+21" /\
  Number_toString (10 ^ 21) = "1e+21" /\
  Number_toString (10 ^ 23) = "1e+23" /\
  Number_toString (- (2 ^ 70)) = "-1.1805916207174113e+21" /\
  Number_toString (2 ^ 1024) = "Infinity".
Proof. repeat split; vm_compute; reflexivity. Qed.

(** A run whose selected user has the id [2^60]: the checkpoint and the
    posts request show the id as the double prints. *)
Example big_id_run :
  subscription scenario_big_id =
    mkRun [Fetch users_url; ReadJson; ConsoleLog (users_line 1);
           ConsoleLog (user_line "1152921504606847000" "Big" "b@c.org");
           Fetch (posts_url "1152921504606847000"); ReadJson;
           ConsoleLog (posts_line 0);
           ConsoleError error_label "El usuario no tiene publicaciones.";
           ConsoleLog finalize_line]
          [None] [].
Proof. vm_compute. reflexivity. Qed.

(** ** Numbers *)

Lemma decimal_read z :
  option_map Z.of_int (NilZero.int_of_string (decimal z)) = Some z.
Proof.
  unfold decimal.
  assert (H : forall d,
             option_map Z.of_int (NilZero.int_of_string (NilZero.string_of_int d)) =
             Some (Z.of_int d)).
  { intros [u|u]; destruct u;
      first [ rewrite NilZero.isi_posnil; reflexivity
            | rewrite NilZero.isi_negnil; reflexivity
            | rewrite NilZero.isi by discriminate; reflexivity ]. }
  rewrite H, DecimalZ.of_to. reflexivity.
Qed.

Lemma decimal_inj a b : decimal a = decimal b -> a = b.
Proof.
  intros H. pose proof (decimal_read a) as Ha. rewrite H, decimal_read in Ha.
  injection Ha as Ha. symmetry. exact Ha.
Qed.

(** An integer below [2^53] is a double. *)
Lemma nearest_double_safe v : (v < 2 ^ 53)%Z -> nearest_double v = Some v.
Proof.
  intros H. unfold nearest_double.
  assert (Hl : (Z.log2 v - 52 <= 0)%Z).
  { destruct (Z.le_gt_cases v 0) as [Hv|Hv].
    - rewrite (Z.log2_nonpos v Hv). lia.
    - assert (Z.log2 v < 53)%Z by (apply Z.log2_lt_pow2; lia). lia. }
  apply Z.leb_le in Hl. rewrite Hl. reflexivity.
Qed.

(** Rounding does not take an integer from [2^53] on below [2^53]. *)
Lemma nearest_double_large v d :
  (2 ^ 53 <= v)%Z -> nearest_double v = Some d -> (2 ^ 53 <= d)%Z.
Proof.
  intros H. unfold nearest_double.
  assert (Hv : (0 < v)%Z) by (assert (0 < 2 ^ 53)%Z by reflexivity; lia).
  assert (Hl : (53 <= Z.log2 v)%Z) by (apply Z.log2_le_pow2; lia).
  destruct (Z.leb_spec (Z.log2 v - 52) 0) as [Hs|Hs]; [lia|].
  set (shift := (Z.log2 v - 52)%Z) in *.
  destruct (Z.log2_spec v Hv) as [Hlo _].
  assert (Hp : (2 ^ Z.log2 v = 2 ^ 52 * 2 ^ shift)%Z).
  { rewrite <- Z.pow_add_r by lia. f_equal. unfold shift. lia. }
  assert (H2 : (0 < 2 ^ shift)%Z) by (apply Z.pow_pos_nonneg; lia).
  assert (Hq : (2 ^ 52 <= v / 2 ^ shift)%Z).
  { apply Z.div_le_lower_bound; [exact H2|]. rewrite Z.mul_comm. lia. }
  assert (Hs1 : (2 <= 2 ^ shift)%Z).
  { change 2%Z with (2 ^ 1)%Z at 1. apply Z.pow_le_mono_r; lia. }
  assert (E53 : (2 ^ 53 = 2 ^ 52 * 2)%Z) by reflexivity.
  destruct ((_ <? _)%Z || _); destruct (_ <? _)%Z; intros E; inversion E; subst d; nia.
Qed.

Lemma rounds_to_safe x v : (x < 2 ^ 53)%Z -> rounds_to x v = true -> v = x.
Proof.
  intros Hx. unfold rounds_to.
  destruct (Z.lt_ge_cases v (2 ^ 53)) as [Hv|Hv].
  - rewrite (nearest_double_safe Hv). intros E. apply Z.eqb_eq in E. exact E.
  - destruct (nearest_double v) as [d|] eqn:E; [|discriminate].
    pose proof (nearest_double_large Hv E). intros E'. apply Z.eqb_eq in E'. lia.
Qed.

(** What [shortest] finds reads back as the double it was given. *)
Lemma shortest_rounds e x : rounds_to x x = true -> rounds_to x (shortest e x) = true.
Proof.
  intros Hx. induction e as [|e IH]; cbn [shortest]; cbv zeta;
    match goal with
    | |- context [match rounds_to x ?a with _ => _ end] =>
        destruct (rounds_to x a) eqn:El
    end;
    match goal with
    | |- context [match rounds_to x ?a with _ => _ end] =>
        destruct (rounds_to x a) eqn:Eh
    end;
    repeat match goal with
           | |- context [if ?c then _ else _] => destruct c
           end; assumption.
Qed.

(** An integer below [2^53] in magnitude prints digit for digit. *)
Lemma Number_toString_safe n :
  (- 2 ^ 53 < n < 2 ^ 53)%Z -> Number_toString n = decimal n.
Proof.
  intros Hn. unfold Number_toString.
  destruct (Z.eqb_spec n 0) as [->|Hz]; [reflexivity|].
  assert (Ha : (Z.abs n < 2 ^ 53)%Z) by lia.
  rewrite (nearest_double_safe Ha).
  assert (Hr : rounds_to (Z.abs n) (Z.abs n) = true).
  { unfold rounds_to. rewrite (nearest_double_safe Ha). apply Z.eqb_refl. }
  rewrite (@rounds_to_safe _ _ Ha (@shortest_rounds (log10 (Z.abs n)) _ Hr)).
  assert (Hlt : (Z.abs n <? 10 ^ 21)%Z = true).
  { apply Z.ltb_lt. assert (2 ^ 53 < 10 ^ 21)%Z by reflexivity. lia. }
  rewrite Hlt. destruct n as [|p|p]; [contradiction| reflexivity | reflexivity].
Qed.

(** The scenario of the specification, event by event. *)
Example scenario_run :
  subscription scenario =
    mkRun [Fetch "https://jsonplaceholder.typicode.com/users"; ReadJson;
           ConsoleLog "👥 Usuarios recibidos: 1";
           ConsoleLog "➡️  Usuario seleccionado: [1] Leanne <a@b.com>";
           Fetch "https://jsonplaceholder.typicode.com/users/1/posts"; ReadJson;
           ConsoleLog "📝 Publicaciones del usuario: 1";
           ConsoleLog "➡️  Primera publicación: [1] T1";
           Fetch "https://jsonplaceholder.typicode.com/posts/1/comments"; ReadJson;
           ConsoleLog header_line;
           ConsoleLog "Usuario: [1] Leanne <a@b.com>";
           ConsoleLog "Publicación: [1] T1";
           ConsoleLog "Comentarios recibidos: 1";
           ConsoleLog "Primer comentario: [1] C <c@d.com>";
           ConsoleLog footer_line;
           ConsoleLog "✅ Flujo completado (finalize)."]
          [Some (mkResult (mkUser (JNum 1) (JStr "Leanne") (JStr "a@b.com"))
                          (mkPost (JNum 1) (JStr "T1"))
                          [mkComment (JNum 1) (JStr "C") (JStr "c@d.com")])]
          [].
Proof. vm_compute. reflexivity. Qed.

(** A payload the program does not validate: a [null] element makes the
    projection throw, and the run ends as any failed run does. *)
Example null_user_run :
  subscription (network [(users_url, array_response [JNull])]) =
    mkRun [Fetch users_url; ReadJson;
           ConsoleError error_label "Cannot read properties of null (reading 'id')";
           ConsoleLog finalize_line]
          [None] [].
Proof. vm_compute. reflexivity. Qed.

(** A transport failure at the first request. *)
Example unreachable_run :
  subscription (fun _ => Rejected (mkError HostError "fetch failed")) =
    mkRun [Fetch users_url; ConsoleError error_label "fetch failed";
           ConsoleLog finalize_line]
          [None] [].
Proof. vm_compute. reflexivity. Qed.

(** ** The fetch helper *)

Section Fetching.

Variable env : Env.

Lemma httpGetJson_responds url payload :
  responds env url payload ->
  httpGetJson env url = ([Fetch url], Return (mkObs [Eff ReadJson; Next payload] Complete)).
Proof.
  intros (res & Hres & Hok & Hbody).
  unfold httpGetJson, _fetch, json. cbn.
  rewrite Hres. cbn. rewrite Hok. cbn. rewrite Hbody. reflexivity.
Qed.

Lemma httpGetJson_status url res :
  env url = Fulfilled res -> ok res = false ->
  httpGetJson env url = ([Fetch url], Return (mkObs [] (Failed (http_error res url)))).
Proof.
  intros Hres Hok. unfold httpGetJson, _fetch. cbn.
  rewrite Hres. cbn. rewrite Hok. reflexivity.
Qed.

Lemma httpGetJson_rejected url e :
  env url = Rejected e ->
  httpGetJson env url = ([Fetch url], Return (mkObs [] (Failed e))).
Proof.
  intros Hres. unfold httpGetJson, _fetch. cbn. rewrite Hres. reflexivity.
Qed.

Lemma httpGetJson_unparsed url res e :
  env url = Fulfilled res -> ok res = true -> body res = Rejected e ->
  httpGetJson env url = ([Fetch url], Return (mkObs [Eff ReadJson] (Failed e))).
Proof.
  intros Hres Hok Hbody. unfold httpGetJson, _fetch, json. cbn.
  rewrite Hres. cbn. rewrite Hok. cbn. rewrite Hbody. reflexivity.
Qed.

End Fetching.

(** ** Reading and projecting payloads *)

Lemma get_readable v key : readable v -> get v key = ret (field v key).
Proof. destruct v; cbn; intros H; try discriminate; reflexivity. Qed.

Lemma projectUser_readable v : readable v -> projectUser v = ret (user_of v).
Proof. intros H. unfold projectUser. rewrite !get_readable by exact H. reflexivity. Qed.

Lemma projectPost_readable v : readable v -> projectPost v = ret (post_of v).
Proof. intros H. unfold projectPost. rewrite !get_readable by exact H. reflexivity. Qed.

Lemma projectComment_readable v : readable v -> projectComment v = ret (comment_of v).
Proof. intros H. unfold projectComment. rewrite !get_readable by exact H. reflexivity. Qed.

Lemma mapM_ret {X Y} (f : X -> Js Y) (g : X -> Y) (P : X -> Prop) l :
  (forall x, P x -> f x = ret (g x)) -> Forall P l -> mapM f l = ret (List.map g l).
Proof.
  intros Hf. induction 1 as [|x l Hx _ IH]; cbn; [reflexivity|].
  rewrite (Hf x Hx), IH. reflexivity.
Qed.

Lemma str_printable v s : ToString v = Some s -> str v = ret s.
Proof. intros H. unfold str. rewrite H. reflexivity. Qed.

Lemma array_map_readable {Y} var (f : JsVal -> Js Y) (g : JsVal -> Y) l :
  (forall v, readable v -> f v = ret (g v)) -> Forall readable l ->
  array_map var f (JArr l) = ret (List.map g l).
Proof. intros Hf Hl. cbn. exact (mapM_ret f g Hf Hl). Qed.

(** ** Single-shot streams

    The value operators sequence a single-shot source with their callback;
    [Shot] and [Sat] compose along the chain as pre- and postconditions. *)

#[local] Arguments effs : simpl never.

Lemma effs_app {A} (l1 l2 : list Event) : @effs A (l1 ++ l2) = (effs l1 ++ effs l2)%list.
Proof. apply map_app. Qed.

Lemma Sat_ret (P : Event -> Prop) {X} (Q : X -> Prop) x : Q x -> Sat P Q (ret x).
Proof. intros H. split; [constructor|]. cbn. intros y [= <-]. exact H. Qed.

Lemma Sat_returns {X} (P : Event -> Prop) (Q : X -> Prop) evs x :
  Forall P evs -> Q x -> Sat P Q (evs, Return x).
Proof. intros Hevs H. split; [exact Hevs|]. cbn. intros y [= <-]. exact H. Qed.

Lemma Sat_throw (P : Event -> Prop) {X} (Q : X -> Prop) e : Sat P Q (throw e).
Proof. split; [constructor|]. cbn. discriminate. Qed.

Lemma Sat_bind (P : Event -> Prop) {X Y} (Q : X -> Prop) (R : Y -> Prop)
    (c : Js X) (k : X -> Js Y) :
  Sat P Q c -> (forall x, Q x -> Sat P R (k x)) -> Sat P R (bind c k).
Proof.
  destruct c as [evs [x|e]]; intros [Hevs Hres] Hk; cbn in *.
  - destruct (Hk x (Hres x eq_refl)) as [Hevs' Hres'].
    destruct (k x) as [evs' r]; cbn in *. split; [|exact Hres'].
    apply Forall_app; split; assumption.
  - split; [exact Hevs|]. cbn. discriminate.
Qed.

Lemma Sat_weaken (P : Event -> Prop) {X} (Q R : X -> Prop) (c : Js X) :
  Sat P Q c -> (forall x, Q x -> R x) -> Sat P R c.
Proof. intros [H1 H2] H. split; [exact H1|]. intros x Hx. apply H, H2, Hx. Qed.

Lemma Sat_console_log (P : Event -> Prop) (Q : unit -> Prop) line :
  P (ConsoleLog line) -> Q tt -> Sat P Q (console_log line).
Proof. intros H HQ. apply Sat_returns; [repeat constructor; exact H|exact HQ]. Qed.

Lemma Shot_throwError {A} (P : Event -> Prop) (Q : A -> Prop) e : Shot P Q (Rx.throwError e).
Proof. exact (Fails [] e eq_refl (Forall_nil _)). Qed.

Lemma Shot_inner {A} (P : Event -> Prop) (Q : A -> Prop) (c : Js (Observable A)) :
  Sat P (Shot P Q) c -> Shot P Q (Rx.inner c).
Proof.
  destruct c as [evs [o|e]]; intros [Hevs Hres]; cbn in *.
  - destruct (Hres o eq_refl) as [evs' a -> Hevs' Ha|evs' e -> Hevs'].
    + apply (Emits (evs ++ evs')%list a).
      * cbn. rewrite effs_app, app_assoc. reflexivity.
      * apply Forall_app; split; assumption.
      * exact Ha.
    + apply (Fails (evs ++ evs')%list e).
      * cbn. rewrite effs_app. reflexivity.
      * apply Forall_app; split; assumption.
  - exact (Fails evs e eq_refl Hevs).
Qed.

(** On a single-shot source the value operators are a sequencing. *)
Lemma each_emits {A B} (k : A -> Observable B) evs a :
  Rx.each k (effs evs ++ [Next a])%list Complete =
  mkObs (effs evs ++ items (k a))%list (ending (k a)).
Proof.
  unfold effs. induction evs as [|ev evs IH]; cbn.
  - destruct (k a) as [l [|e]]; cbn; [rewrite app_nil_r|]; reflexivity.
  - rewrite IH. reflexivity.
Qed.

Lemma each_fails {A B} (k : A -> Observable B) evs e :
  Rx.each k (effs evs) (Failed e) = mkObs (effs evs) (Failed e).
Proof. unfold effs. induction evs as [|ev evs IH]; cbn; [|rewrite IH]; reflexivity. Qed.

Lemma Shot_each {A B} (P : Event -> Prop) (Q : A -> Prop) (R : B -> Prop)
    (k : A -> Observable B) src :
  Shot P Q src -> (forall a, Q a -> Shot P R (k a)) ->
  Shot P R (Rx.each k (items src) (ending src)).
Proof.
  intros [evs a -> Hevs Ha|evs e -> Hevs] Hk; cbn.
  - rewrite each_emits.
    destruct (Hk a Ha) as [evs' b -> Hevs' Hb|evs' e -> Hevs']; cbn.
    + apply (Emits (evs ++ evs')%list b).
      * rewrite effs_app, app_assoc. reflexivity.
      * apply Forall_app; split; assumption.
      * exact Hb.
    + apply (Fails (evs ++ evs')%list e).
      * rewrite effs_app. reflexivity.
      * apply Forall_app; split; assumption.
  - rewrite each_fails. exact (Fails evs e eq_refl Hevs).
Qed.

Lemma Shot_map {A B} (P : Event -> Prop) (Q : A -> Prop) (R : B -> Prop)
    (f : A -> Js B) src :
  Shot P Q src -> (forall a, Q a -> Sat P R (f a)) -> Shot P R (Rx.map f src).
Proof.
  intros Hsrc Hf. apply Shot_each with (Q := Q); [exact Hsrc|]. intros a Ha.
  apply Shot_inner. apply Sat_bind with (Q := R); [exact (Hf a Ha)|]. intros b Hb.
  apply Sat_ret.
  exact (Emits [] b eq_refl (Forall_nil _) Hb).
Qed.

Lemma Shot_switchMap {A B} (P : Event -> Prop) (Q : A -> Prop) (R : B -> Prop)
    (f : A -> Js (Observable B)) src :
  Shot P Q src -> (forall a, Q a -> Sat P (Shot P R) (f a)) ->
  Shot P R (Rx.switchMap f src).
Proof.
  intros Hsrc Hf. apply Shot_each with (Q := Q); [exact Hsrc|]. intros a Ha.
  apply Shot_inner, Hf, Ha.
Qed.

Lemma Shot_tap {A} (P : Event -> Prop) (Q R : A -> Prop) (f : A -> Js unit) src :
  Shot P Q src -> (forall a, Q a -> Sat P (fun _ => R a) (f a)) -> Shot P R (Rx.tap f src).
Proof.
  intros Hsrc Hf. apply Shot_each with (Q := Q); [exact Hsrc|]. intros a Ha.
  apply Shot_inner. apply Sat_bind with (Q := fun _ => R a); [exact (Hf a Ha)|].
  intros _ HR. apply Sat_ret.
  exact (Emits [] a eq_refl (Forall_nil _) HR).
Qed.

(** ** What every run of the chain does *)

Create HintDb stage.
#[local] Hint Constructors stage_event Forall : stage.

Lemma Sat_str P v : Sat P (fun s => ToString v = Some s) (str v).
Proof.
  unfold str. destruct (ToString v) as [s|].
  - apply Sat_ret. reflexivity.
  - apply Sat_throw.
Qed.

Lemma projectUser_cases v :
  (readable v /\ projectUser v = ret (user_of v)) \/ exists e, projectUser v = throw e.
Proof.
  destruct v; cbn; first [left; split; reflexivity | right; eexists; reflexivity].
Qed.

Lemma projectPost_cases v :
  (readable v /\ projectPost v = ret (post_of v)) \/ exists e, projectPost v = throw e.
Proof.
  destruct v; cbn; first [left; split; reflexivity | right; eexists; reflexivity].
Qed.

Lemma projectComment_cases v :
  (readable v /\ projectComment v = ret (comment_of v)) \/
  exists e, projectComment v = throw e.
Proof.
  destruct v; cbn; first [left; split; reflexivity | right; eexists; reflexivity].
Qed.

Lemma mapM_cases {Y} (f : JsVal -> Js Y) (g : JsVal -> Y) :
  (forall v, (readable v /\ f v = ret (g v)) \/ exists e, f v = throw e) ->
  forall l, (Forall readable l /\ mapM f l = ret (List.map g l)) \/
            exists e, mapM f l = throw e.
Proof.
  intros Hf. induction l as [|v l IH]; cbn.
  - left. split; [constructor|reflexivity].
  - destruct (Hf v) as [[Hv ->]|[e ->]]; [|right; exists e; reflexivity].
    destruct IH as [[Hl ->]|[e ->]]; [|right; exists e; reflexivity].
    left. split; [constructor; assumption|reflexivity].
Qed.

(** Projecting a payload returns only on an array of readable elements. *)
Lemma Sat_array_map {Y} P var (f : JsVal -> Js Y) (g : JsVal -> Y) v :
  (forall v, (readable v /\ f v = ret (g v)) \/ exists e, f v = throw e) ->
  Sat P (fun ys => exists l, v = JArr l /\ Forall readable l /\ ys = List.map g l)
      (array_map var f v).
Proof.
  intros Hf. destruct v; try apply Sat_throw. cbn.
  destruct (mapM_cases f g Hf elems) as [[Hl ->]|[e ->]]; [|apply Sat_throw].
  apply Sat_ret. exists elems. auto.
Qed.

Section EveryRun.

Variable env : Env.

Lemma Sat_httpGetJson url :
  Sat stage_event (Shot stage_event (responds env url)) (httpGetJson env url).
Proof.
  destruct (env url) as [res|e] eqn:Hres.
  - destruct (ok res) eqn:Hok.
    + destruct (body res) as [v|e] eqn:Hbody.
      * assert (Hr : responds env url v) by (exists res; auto).
        rewrite (httpGetJson_responds Hr). apply Sat_returns; [auto with stage|].
        exact (Emits [ReadJson] v eq_refl (Forall_cons _ ev_read (Forall_nil _)) Hr).
      * rewrite (httpGetJson_unparsed _ _ Hres Hok Hbody).
        apply Sat_returns; [auto with stage|].
        exact (Fails [ReadJson] e eq_refl (Forall_cons _ ev_read (Forall_nil _))).
    + rewrite (httpGetJson_status _ _ Hres Hok). apply Sat_returns; [auto with stage|].
      exact (Fails [] _ eq_refl (Forall_nil _)).
  - rewrite (httpGetJson_rejected _ _ Hres). apply Sat_returns; [auto with stage|].
    exact (Fails [] _ eq_refl (Forall_nil _)).
Qed.

Lemma Sat_getUsers :
  Sat stage_event (Shot stage_event (users_from_payload env)) (getUsers env).
Proof.
  unfold getUsers.
  apply Sat_bind with (Q := Shot stage_event (responds env users_url));
    [apply Sat_httpGetJson|].
  intros src Hsrc. apply Sat_ret.
  apply Shot_map with (Q := responds env users_url); [exact Hsrc|].
  intros v Hv.
  eapply Sat_weaken; [apply Sat_array_map with (g := user_of), projectUser_cases|].
  intros users (l & -> & _ & ->). exists l. auto.
Qed.

Lemma Sat_check_user o :
  (first_of_payload env) o -> Sat stage_event (fun _ => (selected_user env) o) (check_user o).
Proof.
  intros (raw & Hraw & Ho). destruct o as [u|]; [|apply Sat_throw].
  assert (Hsel : (selected_user env) (Some u)).
  { destruct raw as [|u0 us]; [discriminate|]. injection Ho as ->.
    exists u0, us. auto. }
  cbn.
  apply Sat_bind with (Q := any); [eapply Sat_weaken; [apply Sat_str|exact (fun _ _ => I)]|].
  intros i _.
  apply Sat_bind with (Q := any); [eapply Sat_weaken; [apply Sat_str|exact (fun _ _ => I)]|].
  intros n _.
  apply Sat_bind with (Q := any); [eapply Sat_weaken; [apply Sat_str|exact (fun _ _ => I)]|].
  intros e _.
  apply Sat_console_log; [constructor|exact Hsel].
Qed.

Lemma Sat_selection :
  Sat stage_event (Shot stage_event (selected_user env)) (selection env).
Proof.
  unfold selection.
  apply Sat_bind with (Q := Shot stage_event (users_from_payload env)); [apply Sat_getUsers|].
  intros src Hsrc. apply Sat_ret.
  apply Shot_tap with (Q := (first_of_payload env)); [|exact Sat_check_user].
  apply Shot_map with (Q := (users_from_payload env)).
  - apply Shot_tap with (Q := (users_from_payload env)); [exact Hsrc|].
    intros users Husers. apply Sat_console_log; [constructor|exact Husers].
  - intros users (raw & Hraw & ->). apply Sat_ret. exists raw. auto.
Qed.

Lemma Sat_posts_of o :
  (selected_user env) o -> Sat stage_event (Shot stage_event (posts_of_user env)) (posts_of env o).
Proof.
  intros (u0 & us & Husers & ->). cbn. unfold getUserPosts.
  apply Sat_bind with
    (Q := fun src => exists uid, ToString (field u0 "id") = Some uid /\
                     Shot stage_event (responds env (posts_url uid)) src).
  - apply Sat_bind with (Q := fun s => ToString (field u0 "id") = Some s);
      [apply Sat_str|].
    intros uid Huid. eapply Sat_weaken; [apply Sat_httpGetJson|].
    intros src Hsrc. exists uid. auto.
  - intros src (uid & Huid & Hsrc). apply Sat_ret.
    apply Shot_map with (Q := responds env (posts_url uid)); [exact Hsrc|].
    intros v Hv.
    apply Sat_bind with
      (Q := fun ps => exists l, v = JArr l /\ Forall readable l /\ ps = List.map post_of l);
      [apply Sat_array_map, projectPost_cases|].
    intros ps (l & -> & _ & ->). apply Sat_ret.
    exists u0, us, uid, l. cbn. auto.
Qed.

Lemma Sat_comments_of up :
  (posts_of_user env) up ->
  Sat stage_event (Shot stage_event (consistent_result env)) (comments_of env up).
Proof.
  intros (u0 & us & uid & praw & Husers & Hu & Huid & Hposts & Hps).
  unfold comments_of. rewrite Hps.
  destruct praw as [|p0 ps]; cbn [nth_error List.map];
    [apply Sat_ret, Shot_throwError|].
  apply Sat_bind with (Q := any); [eapply Sat_weaken; [apply Sat_str|exact (fun _ _ => I)]|].
  intros i _.
  apply Sat_bind with (Q := any); [eapply Sat_weaken; [apply Sat_str|exact (fun _ _ => I)]|].
  intros t _.
  apply Sat_bind with (Q := any); [apply Sat_console_log; [constructor|exact I]|].
  intros _ _. unfold getPostComments.
  apply Sat_bind with
    (Q := fun src => exists pid, ToString (field p0 "id") = Some pid /\
                     Shot stage_event (responds env (comments_url pid)) src).
  - apply Sat_bind with (Q := fun s => ToString (field p0 "id") = Some s);
      [apply Sat_str|].
    intros pid Hpid. eapply Sat_weaken; [apply Sat_httpGetJson|].
    intros src Hsrc. exists pid. auto.
  - intros src (pid & Hpid & Hsrc). apply Sat_ret.
    apply Shot_map with (Q := responds env (comments_url pid)); [exact Hsrc|].
    intros v Hv.
    apply Sat_bind with
      (Q := fun cs => exists l, v = JArr l /\ Forall readable l /\
                      cs = List.map comment_of l);
      [apply Sat_array_map, projectComment_cases|].
    intros cs (l & -> & _ & ->). apply Sat_ret.
    eexists. split; [reflexivity|].
    exists u0, us, p0, ps, l, uid, pid. cbn.
    rewrite Hu in *. auto 10.
Qed.

Lemma Sat_chain :
  Sat stage_event (Shot stage_event (consistent_result env)) (chain env).
Proof.
  unfold chain.
  apply Sat_bind with (Q := Shot stage_event (selected_user env)); [apply Sat_selection|].
  intros src Hsrc. apply Sat_ret.
  apply Shot_switchMap with (Q := (posts_of_user env)); [|exact Sat_comments_of].
  apply Shot_tap with (Q := (posts_of_user env)).
  - apply Shot_switchMap with (Q := (selected_user env)); [exact Hsrc|exact Sat_posts_of].
  - intros up Hup. apply Sat_console_log; [constructor|exact Hup].
Qed.

Lemma chain_built : exists o, chain env = ([Fetch users_url], Return o).
Proof. eexists. reflexivity. Qed.

End EveryRun.

Lemma summary_events o : Forall summary_event (fst (on_result o)).
Proof.
  assert (Hstr : forall v, Sat summary_event any (str v)).
  { intros v. eapply Sat_weaken; [apply Sat_str|exact (fun _ _ => I)]. }
  assert (H : Sat summary_event any (on_result o)); [|exact (proj1 H)].
  destruct o as [r|]; [|apply Sat_ret; exact I].
  unfold on_result.
  repeat first
    [ apply Sat_console_log; [constructor|exact I]
    | apply Sat_ret; exact I
    | apply Sat_bind with (Q := any); [|intros ? _]
    | apply Hstr
    | destruct (nth_error (comments r) 0) ].
Qed.

Ltac first_bytes :=
  cbv beta iota delta
    [is_finalize users_line user_line posts_line post_line header_line footer_line
     summary_user_line summary_post_line summary_count_line summary_comment_line
     finalize_line nl String.append String.eqb Ascii.eqb Bool.eqb ascii_of_nat
     ascii_of_pos ascii_of_N];
  reflexivity.

Lemma stage_event_not_finalize ev : stage_event ev -> is_finalize ev = false.
Proof. destruct 1; try reflexivity; first_bytes. Qed.

Lemma summary_event_not_finalize ev : summary_event ev -> is_finalize ev = false.
Proof. destruct 1; first_bytes. Qed.

Lemma stage_event_not_error ev : stage_event ev -> is_console_error ev = false.
Proof. destruct 1; reflexivity. Qed.

Lemma summary_event_not_error ev : summary_event ev -> is_console_error ev = false.
Proof. destruct 1; reflexivity. Qed.

Lemma filter_none {X} (f : X -> bool) (P : X -> Prop) l :
  (forall x, P x -> f x = false) -> Forall P l -> List.filter f l = [].
Proof.
  intros H. induction 1 as [|x l Hx _ IH]; cbn; [reflexivity|].
  rewrite (H x Hx). exact IH.
Qed.

(** ** The two shapes of a run

    Either the chain emits its result, which the subscriber summarises, or
    it fails and the recovery reports the error; the finalization line
    closes both. *)

Lemma deliver_effs {A} (next : A -> Js unit) evs l e :
  deliver next (effs evs ++ l)%list e =
  mkRun (evs ++ trace (deliver next l e))%list
        (received (deliver next l e)) (uncaught (deliver next l e)).
Proof.
  unfold effs. induction evs as [|ev evs IH]; cbn.
  - destruct (deliver next l e); reflexivity.
  - rewrite IH. reflexivity.
Qed.

Lemma deliver_next {A} (next : A -> Js unit) a l e :
  deliver next (Next a :: l) e =
  mkRun (fst (next a) ++ trace (deliver next l e))%list
        (a :: received (deliver next l e))
        (thrown (next a) ++ uncaught (deliver next l e))%list.
Proof. cbn. unfold thrown. destruct (next a) as [evs [x|err]]; reflexivity. Qed.

Lemma deliver_effs_complete {A} (next : A -> Js unit) evs :
  deliver next (effs evs) Complete = mkRun evs [] [].
Proof.
  rewrite <- (app_nil_r (effs evs)), deliver_effs. cbn. rewrite app_nil_r. reflexivity.
Qed.

Section Outcomes.

Variable env : Env.

Lemma subscription_run : subscription env = run_of (flow env).
Proof.
  unfold subscription, run_of, subscribe.
  destruct (chain_built env) as [o Ho]. unfold flow, recovered. rewrite Ho.
  cbn [bind ret Rx.inner fst snd items ending app].
  rewrite deliver_effs. reflexivity.
Qed.

(** The chain, subscribed to as soon as it is built, is single-shot: it
    emits one consistent result, or fails. *)
Lemma chain_shot :
  Shot stage_event (consistent_result env) (Rx.inner (chain env)).
Proof. apply Shot_inner, Sat_chain. Qed.

Lemma inner_recovered :
  Rx.inner (recovered env) = Rx.catchError recover (Rx.inner (chain env)).
Proof.
  destruct (chain_built env) as [o Ho]. unfold recovered. rewrite Ho.
  cbn [bind ret Rx.inner fst snd items ending app].
  destruct o as [l [|e]]; unfold Rx.catchError; cbn [ending items]; [reflexivity|].
  rewrite app_assoc. reflexivity.
Qed.

Lemma inner_flow :
  Rx.inner (flow env) = Rx.finalize on_finalize (Rx.inner (recovered env)).
Proof.
  destruct (chain_built env) as [o Ho]. unfold flow, recovered. rewrite Ho.
  cbn [bind ret Rx.inner fst snd items ending app].
  unfold Rx.finalize. cbn [ending items]. rewrite app_assoc. reflexivity.
Qed.

(** A run in which the chain emits [a]. *)
Lemma run_emits evs a :
  Rx.inner (chain env) = mkObs (effs evs ++ [Next a])%list Complete ->
  run_of (recovered env) =
    mkRun (evs ++ fst (on_result a))%list [a] (thrown (on_result a)) /\
  run_of (flow env) =
    mkRun (evs ++ fst (on_result a) ++ [ConsoleLog finalize_line])%list [a]
          (thrown (on_result a)).
Proof.
  intros H. unfold run_of, subscribe. rewrite inner_flow, inner_recovered, H.
  unfold Rx.finalize, Rx.catchError. cbn [ending items].
  split.
  - rewrite deliver_effs, deliver_next. cbn. rewrite !app_nil_r. reflexivity.
  - rewrite <- app_assoc. cbn [app].
    rewrite deliver_effs, deliver_next, deliver_effs_complete.
    cbn. rewrite !app_nil_r. reflexivity.
Qed.

(** A run in which the chain fails with [e]. *)
Lemma run_fails evs e :
  Rx.inner (chain env) = mkObs (effs evs) (Failed e) ->
  run_of (recovered env) =
    mkRun (evs ++ [ConsoleError error_label (message e)])%list [None] [] /\
  run_of (flow env) =
    mkRun (evs ++ [ConsoleError error_label (message e); ConsoleLog finalize_line])%list
          [None] [].
Proof.
  intros H. unfold run_of, subscribe. rewrite inner_flow, inner_recovered, H.
  unfold Rx.finalize, Rx.catchError. cbn [ending items].
  unfold recover. cbn [bind ret console_error Rx.inner Rx.of_ fst snd items ending app].
  change [Eff (ConsoleError error_label (message e)); Next None]
    with (@effs (option PipelineResult) [ConsoleError error_label (message e)]
          ++ [Next None])%list.
  rewrite app_assoc, <- effs_app.
  split.
  - rewrite deliver_effs, deliver_next. cbn. rewrite app_nil_r. reflexivity.
  - rewrite <- app_assoc. cbn [app].
    rewrite deliver_effs, deliver_next, deliver_effs_complete.
    cbn. rewrite <- app_assoc. reflexivity.
Qed.

End Outcomes.

(** Typed payload elements can be read and printed. *)
Lemma typed_user_ok v : typed_user v -> readable v /\ user_ok v.
Proof.
  intros (props & i & n & e & -> & Hi & Hn & He).
  split; [reflexivity|]. unfold user_ok, printable, text, field.
  rewrite Hi, Hn, He. repeat split.
Qed.

Lemma typed_post_ok v : typed_post v -> readable v /\ post_ok v.
Proof.
  intros (props & i & t & -> & Hi & Ht).
  split; [reflexivity|]. unfold post_ok, printable, text, field.
  rewrite Hi, Ht. repeat split.
Qed.

(** ** Runs on given responses *)

#[local] Arguments httpGetJson : simpl never.
#[local] Arguments str : simpl never.
#[local] Arguments array_map : simpl never.
#[local] Arguments on_result : simpl never.

Ltac run_stage :=
  repeat first
    [ rewrite (@array_map_readable _ _ _ user_of _ projectUser_readable) by assumption
    | rewrite (@array_map_readable _ _ _ post_of _ projectPost_readable) by assumption
    | rewrite (@array_map_readable _ _ _ comment_of _ projectComment_readable) by assumption
    | erewrite str_printable by eassumption
    | erewrite httpGetJson_responds by eassumption
    | erewrite httpGetJson_status by eassumption
    | erewrite httpGetJson_rejected by eassumption
    | progress unfold effs
    | progress cbn ].

Section Runs.

Variable env : Env.

Lemma empty_users_run :
  responds env users_url (JArr []) ->
  subscription env =
    mkRun [Fetch users_url; ReadJson; ConsoleLog (users_line 0);
           ConsoleError error_label "No hay usuarios disponibles.";
           ConsoleLog finalize_line]
          [None] [].
Proof.
  intros H.
  unfold subscription, flow, recovered, chain, selection, getUsers.
  rewrite (httpGetJson_responds H). reflexivity.
Qed.

(** The users stage passes and selects the projection of [u0]. *)
Variables (u0 : JsVal) (us : list JsVal) (ui un ue : string).
Hypothesis users_fetched : responds env users_url (JArr (u0 :: us)).
Hypothesis users_readable : Forall readable (u0 :: us).
Hypothesis user_id_text : ToString (field u0 "id") = Some ui.
Hypothesis user_name_text : ToString (field u0 "name") = Some un.
Hypothesis user_email_text : ToString (field u0 "email") = Some ue.

Lemma empty_posts_run :
  responds env (posts_url ui) (JArr []) ->
  subscription env =
    mkRun [Fetch users_url; ReadJson; ConsoleLog (users_line (S (List.length us)));
           ConsoleLog (user_line ui un ue);
           Fetch (posts_url ui); ReadJson; ConsoleLog (posts_line 0);
           ConsoleError error_label "El usuario no tiene publicaciones.";
           ConsoleLog finalize_line]
          [None] [].
Proof.
  intros H.
  unfold subscription, flow, recovered, chain, selection, getUsers.
  run_stage. unfold posts_of, getUserPosts. run_stage.
  rewrite length_map. reflexivity.
Qed.

Lemma posts_status_run res :
  env (posts_url ui) = Fulfilled res -> ok res = false ->
  subscription env =
    mkRun [Fetch users_url; ReadJson; ConsoleLog (users_line (S (List.length us)));
           ConsoleLog (user_line ui un ue);
           Fetch (posts_url ui);
           ConsoleError error_label (message (http_error res (posts_url ui)));
           ConsoleLog finalize_line]
          [None] [].
Proof.
  intros H Hok.
  unfold subscription, flow, recovered, chain, selection, getUsers.
  run_stage. unfold posts_of, getUserPosts. run_stage.
  rewrite length_map. reflexivity.
Qed.

(** The posts stage passes and selects the projection of [p0]. *)
Variables (p0 : JsVal) (ps : list JsVal) (pi pt : string).
Hypothesis posts_fetched : responds env (posts_url ui) (JArr (p0 :: ps)).
Hypothesis posts_readable : Forall readable (p0 :: ps).
Hypothesis post_id_text : ToString (field p0 "id") = Some pi.
Hypothesis post_title_text : ToString (field p0 "title") = Some pt.

Lemma comments_status_run res :
  env (comments_url pi) = Fulfilled res -> ok res = false ->
  subscription env =
    mkRun (checkpoints us ui un ue ps pi pt ++
           [ConsoleError error_label (message (http_error res (comments_url pi)));
            ConsoleLog finalize_line])
          [None] [].
Proof.
  intros H Hok.
  unfold subscription, flow, recovered, chain, selection, getUsers.
  run_stage. unfold posts_of, getUserPosts. run_stage.
  unfold comments_of, getPostComments. run_stage.
  rewrite !length_map. reflexivity.
Qed.

Lemma success_run cs :
  responds env (comments_url pi) (JArr cs) -> Forall readable cs ->
  let r := mkResult (user_of u0) (post_of p0) (List.map comment_of cs) in
  subscription env =
    mkRun (checkpoints us ui un ue ps pi pt ++ [ReadJson] ++ fst (on_result (Some r)) ++
           [ConsoleLog finalize_line])
          [Some r] (thrown (on_result (Some r))).
Proof.
  intros H Hcs r.
  unfold subscription, flow, recovered, chain, selection, getUsers.
  run_stage. unfold posts_of, getUserPosts. run_stage.
  unfold comments_of, getPostComments. run_stage.
  rewrite !length_map. fold r. unfold thrown.
  destruct (on_result (Some r)) as [evs [[]|err]]; cbn;
    rewrite <- ?app_assoc; reflexivity.
Qed.

End Runs.

(** ** A run depends on the network only through the requests it makes *)

Lemma each_local {A B} (P : Event -> Prop) (Q : A -> Prop) (G : Event -> Prop)
    (k1 k2 : A -> Observable B) src :
  Shot P Q src ->
  (forall a, (forall ev, In (Eff ev) (items (k1 a)) -> G ev) -> k1 a = k2 a) ->
  (forall ev, In (Eff ev) (items (Rx.each k1 (items src) (ending src))) -> G ev) ->
  Rx.each k1 (items src) (ending src) = Rx.each k2 (items src) (ending src).
Proof.
  intros [evs a -> _ _|evs e -> _] Hk HG; cbn [items ending] in *.
  - rewrite each_emits in HG. rewrite !each_emits. rewrite <- (Hk a); [reflexivity|].
    intros ev Hev. apply HG. cbn. apply in_or_app. right. exact Hev.
  - rewrite !each_fails. reflexivity.
Qed.

Lemma in_effs {A} ev evs : In (@Eff A ev) (effs evs) <-> In ev evs.
Proof.
  unfold effs. rewrite in_map_iff. split.
  - intros (x & [= ->] & H). exact H.
  - intros H. exists ev. auto.
Qed.

Lemma each_keeps_events {A B} (P : Event -> Prop) (Q : A -> Prop)
    (k : A -> Observable B) src ev :
  Shot P Q src ->
  In (Eff ev) (items src) -> In (Eff ev) (items (Rx.each k (items src) (ending src))).
Proof.
  intros [evs a -> _ _|evs e -> _]; cbn [items ending].
  - rewrite each_emits. cbn. intros H. apply in_or_app.
    apply in_app_or in H as [H|[[=]|[]]]. left. apply in_effs. apply in_effs in H. exact H.
  - rewrite each_fails. cbn. intros H. apply in_effs. apply in_effs in H. exact H.
Qed.

Lemma bind_ret_l {X Y} (x : X) (k : X -> Js Y) : bind (ret x) k = k x.
Proof. unfold bind, ret. destruct (k x). reflexivity. Qed.

Section Locality.

Variables env1 env2 : Env.

Lemma httpGetJson_local url :
  env1 url = env2 url -> httpGetJson env1 url = httpGetJson env2 url.
Proof. intros H. unfold httpGetJson, _fetch. rewrite H. reflexivity. Qed.

Lemma posts_of_local o :
  (forall ev, In (Eff ev) (items (Rx.inner (posts_of env1 o))) ->
              forall url, ev = Fetch url -> env1 url = env2 url) ->
  Rx.inner (posts_of env1 o) = Rx.inner (posts_of env2 o).
Proof.
  destruct o as [u|]; [|reflexivity].
  unfold posts_of, getUserPosts, str.
  destruct (ToString (user_id u)) as [uid|]; [|reflexivity].
  rewrite !bind_ret_l. intros H.
  assert (E : env1 (posts_url uid) = env2 (posts_url uid)).
  { apply (H (Fetch (posts_url uid))); [|reflexivity]. left. reflexivity. }
  rewrite (httpGetJson_local E). reflexivity.
Qed.

Lemma comments_of_local up :
  (forall ev, In (Eff ev) (items (Rx.inner (comments_of env1 up))) ->
              forall url, ev = Fetch url -> env1 url = env2 url) ->
  Rx.inner (comments_of env1 up) = Rx.inner (comments_of env2 up).
Proof.
  unfold comments_of, getPostComments, str.
  destruct (nth_error (up_posts up) 0) as [p|]; [|reflexivity].
  destruct (ToString (post_id p)) as [pid|]; [|reflexivity].
  destruct (ToString (post_title p)) as [t|]; [|reflexivity].
  rewrite !bind_ret_l. intros H.
  assert (E : env1 (comments_url pid) = env2 (comments_url pid)).
  { apply (H (Fetch (comments_url pid))); [|reflexivity]. right. left. reflexivity. }
  rewrite (httpGetJson_local E). reflexivity.
Qed.

(** Two networks that answer alike the requests of the first run give the
    same chain. *)
Lemma chain_local :
  (forall url, In (Eff (Fetch url)) (items (Rx.inner (chain env1))) ->
               env1 url = env2 url) ->
  chain env1 = chain env2.
Proof.
  intros H.
  assert (Husers : env1 users_url = env2 users_url).
  { apply H. left. reflexivity. }
  assert (Hsel : selection env1 = selection env2).
  { unfold selection, getUsers. rewrite (httpGetJson_local Husers). reflexivity. }
  pose proof (Sat_selection env1) as [_ Hshot].
  unfold chain in *. rewrite <- Hsel.
  destruct (selection env1) as [evs [src|e]]; [|reflexivity].
  specialize (Hshot src eq_refl).
  cbn [bind ret Rx.inner fst snd items ending] in *.
  rewrite app_nil_r in H.
  set (G := fun ev => forall url, ev = Fetch url -> env1 url = env2 url).
  assert (HG : forall ev, In (Eff ev)
                 (items (Rx.switchMap (comments_of env1)
                           (Rx.tap log_posts (Rx.switchMap (posts_of env1) src)))) ->
               G ev).
  { intros ev Hev url ->. apply H. apply in_or_app. right. exact Hev. }
  clear H.
  assert (Hposts : Shot stage_event (posts_of_user env1)
                     (Rx.switchMap (posts_of env1) src)).
  { apply Shot_switchMap with (Q := selected_user env1); [exact Hshot|].
    exact (Sat_posts_of (env := env1)). }
  assert (Hlogged : Shot stage_event (posts_of_user env1)
                      (Rx.tap log_posts (Rx.switchMap (posts_of env1) src))).
  { apply Shot_tap with (Q := posts_of_user env1); [exact Hposts|].
    intros up Hup. apply Sat_console_log; [constructor|exact Hup]. }
  assert (E1 : Rx.switchMap (posts_of env1) src = Rx.switchMap (posts_of env2) src).
  { unfold Rx.switchMap.
    apply (each_local G (fun a => Rx.inner (posts_of env1 a))
             (fun a => Rx.inner (posts_of env2 a)) Hshot).
    - intros a Ha. apply posts_of_local. exact Ha.
    - intros ev Hev. apply HG.
      apply (each_keeps_events _ _ Hlogged).
      apply (each_keeps_events _ _ Hposts). exact Hev. }
  assert (E2 : Rx.switchMap (comments_of env1)
                 (Rx.tap log_posts (Rx.switchMap (posts_of env1) src)) =
               Rx.switchMap (comments_of env2)
                 (Rx.tap log_posts (Rx.switchMap (posts_of env1) src))).
  { unfold Rx.switchMap at 1 3.
    apply (each_local G (fun a => Rx.inner (comments_of env1 a))
             (fun a => Rx.inner (comments_of env2 a)) Hlogged).
    - intros a Ha. apply comments_of_local. exact Ha.
    - exact HG. }
  rewrite E2, E1. reflexivity.
Qed.

End Locality.

(** * The claims of the specification *)

(** ** Auxiliary facts *)

Lemma filter_finalize_stage evs :
  Forall stage_event evs -> List.filter is_finalize evs = [].
Proof. apply filter_none, stage_event_not_finalize. Qed.

Lemma filter_finalize_summary o : List.filter is_finalize (fst (on_result o)) = [].
Proof. exact (filter_none _ summary_event_not_finalize (summary_events o)). Qed.

Lemma filter_error_stage evs :
  Forall stage_event evs -> List.filter is_console_error evs = [].
Proof. apply filter_none, stage_event_not_error. Qed.

Lemma filter_error_summary o : List.filter is_console_error (fst (on_result o)) = [].
Proof. exact (filter_none _ summary_event_not_error (summary_events o)). Qed.

Lemma ok_outside (res : Response) :
  (status res < 200 \/ 299 < status res)%Z -> ok res = false.
Proof.
  unfold ok. intros [H|H].
  - apply andb_false_intro1. apply Z.leb_gt. exact H.
  - apply andb_false_intro2. apply Z.leb_gt. exact H.
Qed.

Lemma responds_functional (env : Env) url v w :
  responds env url v -> responds env url w -> v = w.
Proof.
  intros (r1 & E1 & _ & B1) (r2 & E2 & _ & B2).
  rewrite E1 in E2. injection E2 as <-. rewrite B1 in B2. injection B2 as <-.
  reflexivity.
Qed.

Lemma selection_emits (env : Env) u0 us :
  responds env users_url (JArr (u0 :: us)) ->
  Forall readable (u0 :: us) -> user_ok u0 ->
  emitted (items (Rx.inner (selection env))) = [Some (user_of u0)].
Proof.
  intros Hu Hus (Hui & Hun & Hue).
  unfold selection, getUsers. run_stage. reflexivity.
Qed.

Lemma emitted_effs {A} evs (l : list (Item A)) : emitted (effs evs ++ l) = emitted l.
Proof. unfold effs. induction evs as [|ev evs IH]; cbn; auto. Qed.

(** A single-shot stream emits at most once: so do the sources of the two
    [switchMap]s of the chain, and no request of a run is ever made for a
    value that a later one replaces. *)
Lemma Shot_emits_at_most_once {A} (P : Event -> Prop) (Q : A -> Prop) o :
  Shot P Q o -> List.length (emitted (items o)) <= 1.
Proof.
  intros [evs a -> _ _|evs e -> _]; cbn [items].
  - rewrite emitted_effs. cbn. lia.
  - rewrite <- (app_nil_r (effs evs)), emitted_effs. cbn. lia.
Qed.

Lemma selection_emits_at_most_once (env : Env) :
  List.length (emitted (items (Rx.inner (selection env)))) <= 1.
Proof. exact (Shot_emits_at_most_once (Shot_inner (Sat_selection env))). Qed.

Lemma posts_stage_emits_at_most_once (env : Env) evs src :
  selection env = (evs, Return src) ->
  List.length
    (emitted (items (src |> Rx.switchMap (posts_of env) |> Rx.tap log_posts))) <= 1.
Proof.
  intros H. destruct (Sat_selection env) as [_ Hsrc]. rewrite H in Hsrc.
  apply Shot_emits_at_most_once with (P := stage_event) (Q := posts_of_user env).
  apply Shot_tap with (Q := posts_of_user env).
  - apply Shot_switchMap with (Q := selected_user env);
      [exact (Hsrc src eq_refl)|exact (Sat_posts_of (env := env))].
  - intros up Hup. apply Sat_console_log; [constructor|exact Hup].
Qed.

Lemma summary_without_comments u0 p0 :
  user_ok u0 -> post_ok p0 ->
  on_result (Some (mkResult (user_of u0) (post_of p0) [])) =
    ([ConsoleLog header_line;
      ConsoleLog (summary_user_line (text (field u0 "id")) (text (field u0 "name"))
                                    (text (field u0 "email")));
      ConsoleLog (summary_post_line (text (field p0 "id")) (text (field p0 "title")));
      ConsoleLog (summary_count_line 0);
      ConsoleLog footer_line],
     Return tt).
Proof.
  intros (Hui & Hun & Hue) (Hpi & Hpt). unfold on_result. cbn [user post comments].
  cbn [user_of post_of user_id user_name user_email post_id post_title].
  rewrite (str_printable _ Hui), (str_printable _ Hun), (str_printable _ Hue).
  rewrite (str_printable _ Hpi), (str_printable _ Hpt).
  reflexivity.
Qed.

Lemma responds_array (env : Env) url elems :
  env url = array_response elems -> responds env url (JArr elems).
Proof. intros H. eexists. split; [exact H|]. split; reflexivity. Qed.

Ltac by_running := vm_compute; reflexivity.

Ltac scenario_facts :=
  first
    [ apply responds_array; by_running
    | repeat constructor
    | split; by_running ].

(** ** The claims *)

(** C1. When the three requests succeed, on payloads of readable elements
    whose selected user and selected post can be printed at their
    checkpoints (the typed payloads of section 6 are such), the subscriber
    receives exactly the composed result: the projection of the first user,
    the projection of the first of that user's posts, and the projections of
    all the comments of that post. *)
Theorem flow_emits_composed_result (env : Env) u0 us p0 ps cs :
  responds env users_url (JArr (u0 :: us)) ->
  Forall readable (u0 :: us) -> user_ok u0 ->
  responds env (posts_url (text (field u0 "id"))) (JArr (p0 :: ps)) ->
  Forall readable (p0 :: ps) -> post_ok p0 ->
  responds env (comments_url (text (field p0 "id"))) (JArr cs) ->
  Forall readable cs ->
  received (subscription env) =
    [Some (mkResult (user_of u0) (post_of p0) (List.map comment_of cs))] /\
  ending (Rx.inner (chain env)) = Complete.
Proof.
  intros Hu Hus (Hui & Hun & Hue) Hp Hps (Hpi & Hpt) Hc Hcs.
  pose proof (success_run Hu Hus Hui Hun Hue Hp Hps Hpi Hpt Hc Hcs) as H.
  cbv zeta in H. split; [rewrite H; reflexivity|].
  destruct (chain_shot env) as [evs a E _ _|evs e E _]; rewrite E; [reflexivity|].
  destruct (run_fails _ E) as [_ E']. rewrite <- subscription_run, H in E'.
  discriminate E'.
Qed.

Lemma flow_emits_composed_result_witness :
  responds scenario users_url (JArr [leanne]) /\
  responds scenario (posts_url "1") (JArr [post_t1]) /\
  responds scenario (comments_url "1") (JArr [comment_c]) /\
  received (subscription scenario) =
    [Some (mkResult (mkUser (JNum 1) (JStr "Leanne") (JStr "a@b.com"))
                    (mkPost (JNum 1) (JStr "T1"))
                    [mkComment (JNum 1) (JStr "C") (JStr "c@d.com")])].
Proof.
  assert (Hu : responds scenario users_url (JArr [leanne])) by scenario_facts.
  assert (Hp : responds scenario (posts_url "1") (JArr [post_t1])) by scenario_facts.
  assert (Hc : responds scenario (comments_url "1") (JArr [comment_c])) by scenario_facts.
  split; [exact Hu|]. split; [exact Hp|]. split; [exact Hc|].
  refine (proj1 (@flow_emits_composed_result scenario leanne [] post_t1 [] [comment_c]
                   Hu _ _ Hp _ _ Hc _)).
  - repeat constructor.
  - repeat split.
  - repeat constructor.
  - repeat split.
  - repeat constructor.
Defined.

(** C2. Whatever error ends the chain of a run (a failed or non-2xx fetch,
    an empty collection, a throwing callback), the stream handed to the
    subscriber completes and never fails; the error is reported on the
    console exactly once, with its message, and the subscriber receives the
    single value [null]. A chain that completes reports no error. *)
Theorem every_error_is_recovered (env : Env) :
  ending (Rx.inner (flow env)) = Complete /\
  (forall e, ending (Rx.inner (chain env)) = Failed e ->
     List.filter is_console_error (trace (subscription env)) =
       [ConsoleError error_label (message e)] /\
     received (subscription env) = [None] /\
     uncaught (subscription env) = []) /\
  (ending (Rx.inner (chain env)) = Complete ->
     List.filter is_console_error (trace (subscription env)) = []).
Proof.
  rewrite subscription_run.
  destruct (chain_shot env) as [evs a H Hevs _|evs e H Hevs].
  - destruct (run_emits _ _ H) as [_ ->]. rewrite inner_flow, inner_recovered, H.
    cbn. split; [reflexivity|split].
    + intros e [=].
    + intros _. rewrite !filter_app, (filter_error_stage Hevs), filter_error_summary.
      reflexivity.
  - destruct (run_fails _ H) as [_ ->]. rewrite inner_flow, inner_recovered, H.
    cbn. split; [reflexivity|split].
    + intros e' [= <-]. rewrite filter_app, (filter_error_stage Hevs).
      repeat split; reflexivity.
    + intros [=].
Qed.

Lemma every_error_is_recovered_witness :
  ending (Rx.inner (chain scenario_users_500)) =
    Failed (mkError PlainError "HTTP 500 en https://jsonplaceholder.typicode.com/users") /\
  List.filter is_console_error (trace (subscription scenario_users_500)) =
    [ConsoleError error_label "HTTP 500 en https://jsonplaceholder.typicode.com/users"] /\
  received (subscription scenario_users_500) = [None] /\
  uncaught (subscription scenario_users_500) = [].
Proof.
  assert (H : ending (Rx.inner (chain scenario_users_500)) =
              Failed (mkError PlainError
                        "HTTP 500 en https://jsonplaceholder.typicode.com/users"))
    by by_running.
  split; [exact H|].
  exact (proj1 (proj2 (every_error_is_recovered scenario_users_500)) _ H).
Defined.

(** C3. In every run the finalization hook reports exactly once; its report
    is the last event of the run, after everything the run without the hook
    does, and the hook changes neither what the subscriber receives nor what
    is reported to the host. *)
Theorem finalize_fires_exactly_once (env : Env) :
  finalizations (trace (subscription env)) = 1 /\
  trace (subscription env) =
    (trace (run_of (recovered env)) ++ [ConsoleLog finalize_line])%list /\
  finalizations (trace (run_of (recovered env))) = 0 /\
  received (subscription env) = received (run_of (recovered env)) /\
  uncaught (subscription env) = uncaught (run_of (recovered env)).
Proof.
  rewrite subscription_run. unfold finalizations.
  destruct (chain_shot env) as [evs a H Hevs _|evs e H Hevs].
  - destruct (run_emits _ _ H) as [-> ->]. cbn [trace received uncaught].
    rewrite !filter_app, (filter_finalize_stage Hevs), filter_finalize_summary.
    repeat split; try reflexivity.
    rewrite <- app_assoc. reflexivity.
  - destruct (run_fails _ H) as [-> ->]. cbn [trace received uncaught].
    rewrite !filter_app, (filter_finalize_stage Hevs).
    repeat split; try reflexivity.
    rewrite <- app_assoc. reflexivity.
Qed.

(** C4. When the users request succeeds with an empty array, the run issues
    that one request only, reports that no users are available, hands [null]
    to the subscriber, and the finalization hook reports once, last. *)
Theorem empty_users_end_the_run (env : Env) :
  responds env users_url (JArr []) ->
  subscription env =
    mkRun [Fetch users_url; ReadJson; ConsoleLog (users_line 0);
           ConsoleError error_label (message no_users);
           ConsoleLog finalize_line]
          [None] [] /\
  message no_users = "No hay usuarios disponibles.".
Proof. intros H. split; [exact (empty_users_run H)|reflexivity]. Qed.

Lemma empty_users_end_the_run_witness :
  responds scenario_no_users users_url (JArr []) /\
  subscription scenario_no_users =
    mkRun [Fetch users_url; ReadJson; ConsoleLog (users_line 0);
           ConsoleError error_label "No hay usuarios disponibles.";
           ConsoleLog finalize_line]
          [None] [].
Proof.
  assert (H : responds scenario_no_users users_url (JArr [])) by scenario_facts.
  split; [exact H|].
  exact (proj1 (empty_users_end_the_run H)).
Defined.

(** C5. When the selected user's posts request succeeds with an empty
    array, the run reports that the user has no posts and hands [null] to
    the subscriber; the only requests of the run are the users request and
    that posts request: no comments are requested. *)
Theorem empty_posts_end_the_run (env : Env) u0 us :
  responds env users_url (JArr (u0 :: us)) ->
  Forall readable (u0 :: us) -> user_ok u0 ->
  responds env (posts_url (text (field u0 "id"))) (JArr []) ->
  subscription env =
    mkRun [Fetch users_url; ReadJson; ConsoleLog (users_line (S (List.length us)));
           ConsoleLog (user_line (text (field u0 "id")) (text (field u0 "name"))
                                 (text (field u0 "email")));
           Fetch (posts_url (text (field u0 "id"))); ReadJson;
           ConsoleLog (posts_line 0);
           ConsoleError error_label (message no_posts);
           ConsoleLog finalize_line]
          [None] [] /\
  message no_posts = "El usuario no tiene publicaciones.".
Proof.
  intros Hu Hus (Hui & Hun & Hue) Hp. split; [|reflexivity].
  exact (empty_posts_run Hu Hus Hui Hun Hue Hp).
Qed.

Lemma empty_posts_end_the_run_witness :
  responds scenario_no_posts users_url (JArr [user_two]) /\
  responds scenario_no_posts (posts_url "2") (JArr []) /\
  subscription scenario_no_posts =
    mkRun [Fetch users_url; ReadJson; ConsoleLog (users_line 1);
           ConsoleLog (user_line "2" "Ervin" "e@f.com");
           Fetch (posts_url "2"); ReadJson;
           ConsoleLog (posts_line 0);
           ConsoleError error_label "El usuario no tiene publicaciones.";
           ConsoleLog finalize_line]
          [None] [].
Proof.
  assert (Hu : responds scenario_no_posts users_url (JArr [user_two])) by scenario_facts.
  assert (Hp : responds scenario_no_posts (posts_url "2") (JArr [])) by scenario_facts.
  split; [exact Hu|]. split; [exact Hp|].
  refine (proj1 (@empty_posts_end_the_run scenario_no_posts user_two [] Hu _ _ Hp)).
  - repeat constructor.
  - repeat split.
Defined.

(** C6. On a response whose status is outside 200-299, [httpGetJson] issues
    its one request and fails with the error whose message carries the
    status and the URL, without reading the body. In the pipeline such a
    response ends the run at its stage: the error is reported, [null] is
    handed to the subscriber, and no request of a later stage is made. *)
Theorem non_2xx_status_ends_the_run (env : Env) :
  (forall url res,
     env url = Fulfilled res -> (status res < 200 \/ 299 < status res)%Z ->
     httpGetJson env url = ([Fetch url], Return (Rx.throwError (http_error res url))) /\
     message (http_error res url) = "HTTP " ++ decimal (status res) ++ " en " ++ url) /\
  (forall res,
     env users_url = Fulfilled res -> (status res < 200 \/ 299 < status res)%Z ->
     subscription env =
       mkRun [Fetch users_url;
              ConsoleError error_label (message (http_error res users_url));
              ConsoleLog finalize_line]
             [None] []) /\
  (forall u0 us res,
     responds env users_url (JArr (u0 :: us)) ->
     Forall readable (u0 :: us) -> user_ok u0 ->
     env (posts_url (text (field u0 "id"))) = Fulfilled res ->
     (status res < 200 \/ 299 < status res)%Z ->
     subscription env =
       mkRun [Fetch users_url; ReadJson; ConsoleLog (users_line (S (List.length us)));
              ConsoleLog (user_line (text (field u0 "id")) (text (field u0 "name"))
                                    (text (field u0 "email")));
              Fetch (posts_url (text (field u0 "id")));
              ConsoleError error_label
                (message (http_error res (posts_url (text (field u0 "id")))));
              ConsoleLog finalize_line]
             [None] []) /\
  (forall u0 us p0 ps res,
     responds env users_url (JArr (u0 :: us)) ->
     Forall readable (u0 :: us) -> user_ok u0 ->
     responds env (posts_url (text (field u0 "id"))) (JArr (p0 :: ps)) ->
     Forall readable (p0 :: ps) -> post_ok p0 ->
     env (comments_url (text (field p0 "id"))) = Fulfilled res ->
     (status res < 200 \/ 299 < status res)%Z ->
     subscription env =
       mkRun (checkpoints us (text (field u0 "id")) (text (field u0 "name"))
                (text (field u0 "email")) ps (text (field p0 "id"))
                (text (field p0 "title")) ++
              [ConsoleError error_label
                 (message (http_error res (comments_url (text (field p0 "id")))));
               ConsoleLog finalize_line])
             [None] []).
Proof.
  repeat split.
  - apply httpGetJson_status; [assumption|apply ok_outside; assumption].
  - intros res Hres Hst. apply ok_outside in Hst.
    unfold subscription, flow, recovered, chain, selection, getUsers.
    rewrite (httpGetJson_status _ _ Hres Hst). reflexivity.
  - intros u0 us res Hu Hus (Hui & Hun & Hue) Hres Hst.
    exact (posts_status_run Hu Hus Hui Hun Hue Hres (ok_outside _ Hst)).
  - intros u0 us p0 ps res Hu Hus (Hui & Hun & Hue) Hp Hps (Hpi & Hpt) Hres Hst.
    exact (comments_status_run Hu Hus Hui Hun Hue Hp Hps Hpi Hpt Hres (ok_outside _ Hst)).
Qed.

Lemma non_2xx_status_ends_the_run_witness :
  httpGetJson scenario_users_500 users_url =
    ([Fetch users_url],
     Return (Rx.throwError
               (mkError PlainError
                  "HTTP 500 en https://jsonplaceholder.typicode.com/users"))) /\
  subscription scenario_users_500 =
    mkRun [Fetch users_url;
           ConsoleError error_label
             "HTTP 500 en https://jsonplaceholder.typicode.com/users";
           ConsoleLog finalize_line]
          [None] [] /\
  subscription scenario_posts_503 =
    mkRun [Fetch users_url; ReadJson; ConsoleLog (users_line 1);
           ConsoleLog (user_line "1" "Leanne" "a@b.com");
           Fetch (posts_url "1");
           ConsoleError error_label
             "HTTP 503 en https://jsonplaceholder.typicode.com/users/1/posts";
           ConsoleLog finalize_line]
          [None] [] /\
  subscription scenario_comments_404 =
    mkRun [Fetch users_url; ReadJson; ConsoleLog (users_line 1);
           ConsoleLog (user_line "1" "Leanne" "a@b.com");
           Fetch (posts_url "1"); ReadJson; ConsoleLog (posts_line 1);
           ConsoleLog (post_line "1" "T1");
           Fetch (comments_url "1");
           ConsoleError error_label
             "HTTP 404 en https://jsonplaceholder.typicode.com/posts/1/comments";
           ConsoleLog finalize_line]
          [None] [].
Proof.
  assert (O500 : (500 < 200 \/ 299 < 500)%Z) by (right; reflexivity).
  assert (O503 : (503 < 200 \/ 299 < 503)%Z) by (right; reflexivity).
  assert (O404 : (404 < 200 \/ 299 < 404)%Z) by (right; reflexivity).
  assert (Hu : responds scenario_posts_503 users_url (JArr [leanne])) by scenario_facts.
  assert (Hu' : responds scenario_comments_404 users_url (JArr [leanne]))
    by scenario_facts.
  assert (Hp' : responds scenario_comments_404 (posts_url "1") (JArr [post_t1]))
    by scenario_facts.
  split; [|split; [|split]].
  - exact (proj1 (proj1 (non_2xx_status_ends_the_run scenario_users_500)
                    users_url (mkResponse 500 (Fulfilled (JObj []))) eq_refl O500)).
  - exact (proj1 (proj2 (non_2xx_status_ends_the_run scenario_users_500))
             (mkResponse 500 (Fulfilled (JObj []))) eq_refl O500).
  - refine (proj1 (proj2 (proj2 (non_2xx_status_ends_the_run scenario_posts_503)))
              leanne [] (mkResponse 503 (Fulfilled (JObj []))) Hu _ _ eq_refl O503).
    + repeat constructor.
    + repeat split.
  - refine (proj2 (proj2 (proj2 (non_2xx_status_ends_the_run scenario_comments_404)))
              leanne [] post_t1 [] (mkResponse 404 (Fulfilled (JObj [])))
              Hu' _ _ Hp' _ _ eq_refl O404).
    + repeat constructor.
    + repeat split.
    + repeat constructor.
    + repeat split.
Defined.

(** C7. A result handed to the subscriber is consistent: its user is the
    projection of the first element of the users payload, its post the
    projection of the first element of the payload fetched for that user's
    id, and its comments the projection of the payload fetched for that
    post's id. Every run hands the subscriber exactly one value, the result
    or [null]. *)
Theorem result_is_consistent_and_single (env : Env) :
  (forall r, In (Some r) (received (subscription env)) -> consistent env r) /\
  (exists o, received (subscription env) = [o]).
Proof.
  rewrite subscription_run.
  destruct (chain_shot env) as [evs a H Hevs (r & -> & Hr)|evs e H Hevs].
  - destruct (run_emits _ _ H) as [_ ->]. cbn. split; [|eauto].
    intros r' [[= <-]|[]]. exact Hr.
  - destruct (run_fails _ H) as [_ ->]. cbn. split; [|eauto].
    intros r' [[=]|[]].
Qed.

Lemma result_is_consistent_and_single_witness :
  In (Some (mkResult (user_of leanne) (post_of post_t1) [comment_of comment_c]))
     (received (subscription scenario)) /\
  consistent scenario (mkResult (user_of leanne) (post_of post_t1) [comment_of comment_c]).
Proof.
  assert (H : In (Some (mkResult (user_of leanne) (post_of post_t1)
                          [comment_of comment_c]))
                 (received (subscription scenario))) by (left; by_running).
  split; [exact H|].
  exact (proj1 (result_is_consistent_and_single scenario) _ H).
Defined.

(** C9. The selected user is the element at index 0 of the users payload:
    the selection emits its projection when it can be printed, and never
    emits anything else. The run is a function of the answers to the
    requests it makes: two networks that answer those requests alike give
    the same run (same events, same messages, same value handed to the
    subscriber). *)
Theorem runs_are_deterministic :
  (forall env raw u0,
     responds env users_url (JArr raw) -> Forall readable raw ->
     nth_error raw 0 = Some u0 -> user_ok u0 ->
     emitted (items (Rx.inner (selection env))) = [Some (user_of u0)]) /\
  (forall env raw o,
     responds env users_url (JArr raw) ->
     In o (emitted (items (Rx.inner (selection env)))) ->
     exists u0, nth_error raw 0 = Some u0 /\ o = Some (user_of u0)) /\
  (forall env1 env2,
     (forall url, In (Fetch url) (trace (subscription env1)) -> env1 url = env2 url) ->
     subscription env1 = subscription env2).
Proof.
  split; [|split].
  - intros env [|u us] u0 Hu Hus [= <-] Hok. exact (selection_emits Hu Hus Hok).
  - intros env raw o Hraw Ho.
    destruct (Shot_inner (Sat_selection env)) as [evs a E _ Ha|evs e E _];
      rewrite E in Ho; cbn [items] in Ho.
    + rewrite emitted_effs in Ho. destruct Ho as [<-|[]].
      destruct Ha as (u0 & us & Hu & ->).
      pose proof (responds_functional Hraw Hu) as [= ->]. exists u0. auto.
    + rewrite <- (app_nil_r (effs evs)), emitted_effs in Ho. destruct Ho.
  - intros env1 env2 H.
    assert (E : chain env1 = chain env2).
    { apply chain_local. intros url Hin. apply H.
      rewrite subscription_run.
      destruct (chain_shot env1) as [evs a E _ _|evs e E _]; rewrite E in Hin;
        cbn [items] in Hin.
      - destruct (run_emits _ _ E) as [_ ->]. cbn [trace].
        apply in_or_app. left.
        apply in_app_or in Hin as [Hin|[[=]|[]]]. apply in_effs in Hin. exact Hin.
      - destruct (run_fails _ E) as [_ ->]. cbn [trace].
        apply in_or_app. left. apply in_effs in Hin. exact Hin. }
    unfold subscription, flow, recovered. rewrite E. reflexivity.
Qed.

Lemma runs_are_deterministic_witness :
  (forall url, In (Fetch url) (trace (subscription scenario)) ->
               scenario url = scenario_extended url) /\
  subscription scenario = subscription scenario_extended.
Proof.
  assert (H : forall url, In (Fetch url) (trace (subscription scenario)) ->
                          scenario url = scenario_extended url).
  { intros url Hin. vm_compute in Hin.
    repeat (destruct Hin as [Hin|Hin]; [try discriminate Hin|]);
      try (injection Hin as <-; vm_compute; reflexivity).
    destruct Hin. }
  split; [exact H|].
  exact (proj2 (proj2 runs_are_deterministic) scenario scenario_extended H).
Defined.

(** C10. A post without comments is not an error: when the three requests
    succeed and the comments payload is the empty array, the subscriber
    receives the result with an empty comments sequence, the summary has the
    count line and no first-comment line, and nothing is reported as an
    error. *)
Theorem empty_comments_are_a_result (env : Env) u0 us p0 ps :
  responds env users_url (JArr (u0 :: us)) ->
  Forall readable (u0 :: us) -> user_ok u0 ->
  responds env (posts_url (text (field u0 "id"))) (JArr (p0 :: ps)) ->
  Forall readable (p0 :: ps) -> post_ok p0 ->
  responds env (comments_url (text (field p0 "id"))) (JArr []) ->
  subscription env =
    mkRun (checkpoints us (text (field u0 "id")) (text (field u0 "name"))
             (text (field u0 "email")) ps (text (field p0 "id"))
             (text (field p0 "title")) ++
           [ReadJson;
            ConsoleLog header_line;
            ConsoleLog (summary_user_line (text (field u0 "id")) (text (field u0 "name"))
                                          (text (field u0 "email")));
            ConsoleLog (summary_post_line (text (field p0 "id")) (text (field p0 "title")));
            ConsoleLog (summary_count_line 0);
            ConsoleLog footer_line;
            ConsoleLog finalize_line])
          [Some (mkResult (user_of u0) (post_of p0) [])] [].
Proof.
  intros Hu Hus Hok Hp Hps Hpok Hc.
  pose proof Hok as (Hui & Hun & Hue). pose proof Hpok as (Hpi & Hpt).
  pose proof (success_run Hu Hus Hui Hun Hue Hp Hps Hpi Hpt Hc (Forall_nil _)) as H.
  cbv zeta in H. cbn [List.map] in H.
  rewrite H. unfold thrown. rewrite (summary_without_comments Hok Hpok). reflexivity.
Qed.

Lemma empty_comments_are_a_result_witness :
  responds scenario_no_comments users_url (JArr [leanne]) /\
  responds scenario_no_comments (posts_url "1") (JArr [post_t1]) /\
  responds scenario_no_comments (comments_url "1") (JArr []) /\
  subscription scenario_no_comments =
    mkRun [Fetch users_url; ReadJson; ConsoleLog (users_line 1);
           ConsoleLog (user_line "1" "Leanne" "a@b.com");
           Fetch (posts_url "1"); ReadJson; ConsoleLog (posts_line 1);
           ConsoleLog (post_line "1" "T1");
           Fetch (comments_url "1"); ReadJson;
           ConsoleLog header_line;
           ConsoleLog (summary_user_line "1" "Leanne" "a@b.com");
           ConsoleLog (summary_post_line "1" "T1");
           ConsoleLog (summary_count_line 0);
           ConsoleLog footer_line;
           ConsoleLog finalize_line]
          [Some (mkResult (user_of leanne) (post_of post_t1) [])] [].
Proof.
  assert (Hu : responds scenario_no_comments users_url (JArr [leanne]))
    by scenario_facts.
  assert (Hp : responds scenario_no_comments (posts_url "1") (JArr [post_t1]))
    by scenario_facts.
  assert (Hc : responds scenario_no_comments (comments_url "1") (JArr []))
    by scenario_facts.
  split; [exact Hu|]. split; [exact Hp|]. split; [exact Hc|].
  refine (@empty_comments_are_a_result scenario_no_comments leanne [] post_t1 []
            Hu _ _ Hp _ _ Hc).
  - repeat constructor.
  - repeat split.
  - repeat constructor.
  - repeat split.
Defined.

(** * Further properties of the code *)

(** ** The fetch helper, case by case *)

Lemma ok_inside (res : Response) :
  (200 <= status res <= 299)%Z -> ok res = true.
Proof.
  intros [H1 H2]. unfold ok. apply andb_true_intro.
  split; apply Z.leb_le; assumption.
Qed.

Lemma inner_httpGetJson (env : Env) url o :
  httpGetJson env url = ([Fetch url], Return o) ->
  Rx.inner (httpGetJson env url) = mkObs (Eff (Fetch url) :: items o) (ending o).
Proof. intros ->. reflexivity. Qed.

(** X1. On a response whose status is in 200-299, both ends included,
    [httpGetJson] makes its request, reads the body once, emits the parsed
    payload as its only value and completes. *)
Theorem httpGetJson_emits_parsed_body (env : Env) url res payload :
  env url = Fulfilled res -> (200 <= status res <= 299)%Z ->
  body res = Fulfilled payload ->
  Rx.inner (httpGetJson env url) =
    mkObs [Eff (Fetch url); Eff ReadJson; Next payload] Complete.
Proof.
  intros Hres Hst Hbody.
  assert (H : responds env url payload).
  { exists res. repeat split; [exact Hres|exact (ok_inside _ Hst)|exact Hbody]. }
  rewrite (inner_httpGetJson (httpGetJson_responds H)). reflexivity.
Qed.

Lemma httpGetJson_emits_parsed_body_witness :
  Rx.inner (httpGetJson (network [(users_url, status_response 200)]) users_url) =
    mkObs [Eff (Fetch users_url); Eff ReadJson; Next (JObj [])] Complete /\
  Rx.inner (httpGetJson (network [(users_url, status_response 299)]) users_url) =
    mkObs [Eff (Fetch users_url); Eff ReadJson; Next (JObj [])] Complete.
Proof.
  split.
  - refine (@httpGetJson_emits_parsed_body _ users_url
              (mkResponse 200 (Fulfilled (JObj []))) (JObj []) eq_refl _ eq_refl).
    cbn. lia.
  - refine (@httpGetJson_emits_parsed_body _ users_url
              (mkResponse 299 (Fulfilled (JObj []))) (JObj []) eq_refl _ eq_refl).
    cbn. lia.
Defined.

(** X2. A failure of the host passes through [httpGetJson] unchanged: a
    rejected request fails the stream with the rejection, without a body
    read; a body that does not parse fails it with the parse error, after
    the one read. At the users stage the run then reports exactly that
    error's message and ends with [null], with no further request. *)
Theorem host_failures_pass_through (env : Env) :
  (forall url e,
     env url = Rejected e ->
     Rx.inner (httpGetJson env url) = mkObs [Eff (Fetch url)] (Failed e)) /\
  (forall url res e,
     env url = Fulfilled res -> (200 <= status res <= 299)%Z ->
     body res = Rejected e ->
     Rx.inner (httpGetJson env url) = mkObs [Eff (Fetch url); Eff ReadJson] (Failed e)) /\
  (forall e,
     env users_url = Rejected e ->
     subscription env =
       mkRun [Fetch users_url; ConsoleError error_label (message e);
              ConsoleLog finalize_line]
             [None] []) /\
  (forall res e,
     env users_url = Fulfilled res -> (200 <= status res <= 299)%Z ->
     body res = Rejected e ->
     subscription env =
       mkRun [Fetch users_url; ReadJson; ConsoleError error_label (message e);
              ConsoleLog finalize_line]
             [None] []).
Proof.
  split; [|split; [|split]].
  - intros url e H. rewrite (inner_httpGetJson (httpGetJson_rejected _ _ H)). reflexivity.
  - intros url res e H Hst Hb.
    rewrite (inner_httpGetJson (httpGetJson_unparsed _ _ H (ok_inside _ Hst) Hb)).
    reflexivity.
  - intros e H. unfold subscription, flow, recovered, chain, selection, getUsers.
    rewrite (httpGetJson_rejected _ _ H). reflexivity.
  - intros res e H Hst Hb. unfold subscription, flow, recovered, chain, selection, getUsers.
    rewrite (httpGetJson_unparsed _ _ H (ok_inside _ Hst) Hb). reflexivity.
Qed.

Lemma host_failures_pass_through_witness :
  subscription unreachable =
    mkRun [Fetch users_url; ConsoleError error_label "fetch failed";
           ConsoleLog finalize_line]
          [None] [] /\
  subscription scenario_bad_json =
    mkRun [Fetch users_url; ReadJson;
           ConsoleError error_label "Unexpected token < in JSON";
           ConsoleLog finalize_line]
          [None] [].
Proof.
  split.
  - exact (proj1 (proj2 (proj2 (host_failures_pass_through unreachable)))
             (mkError HostError "fetch failed") eq_refl).
  - refine (proj2 (proj2 (proj2 (host_failures_pass_through scenario_bad_json)))
              (mkResponse 200 (Rejected (mkError HostError "Unexpected token < in JSON")))
              (mkError HostError "Unexpected token < in JSON") eq_refl _ eq_refl).
    cbn. lia.
Defined.

(** X3. Whatever the network answers, one call of [httpGetJson] makes
    exactly one request, for the URL it was given, and never a second one;
    it reads a body at most once, and exactly when the response has a status
    in 200-299; it emits at most one value. *)
Theorem httpGetJson_makes_one_request (env : Env) url :
  requests (effects (items (Rx.inner (httpGetJson env url)))) = [url] /\
  body_reads (effects (items (Rx.inner (httpGetJson env url)))) <= 1 /\
  (body_reads (effects (items (Rx.inner (httpGetJson env url)))) = 1 <->
   exists res, env url = Fulfilled res /\ (200 <= status res <= 299)%Z) /\
  List.length (emitted (items (Rx.inner (httpGetJson env url)))) <= 1.
Proof.
  assert (Hok : forall res, ok res = true <-> (200 <= status res <= 299)%Z).
  { intros res. unfold ok. rewrite andb_true_iff, !Z.leb_le. reflexivity. }
  destruct (env url) as [res|e] eqn:Hres.
  - destruct (ok res) eqn:Hres_ok.
    + assert (Hin : exists r, Fulfilled res = Fulfilled r /\ (200 <= status r <= 299)%Z)
        by (exists res; split; [reflexivity|apply Hok, Hres_ok]).
      destruct (body res) as [v|e] eqn:Hbody.
      * assert (H : responds env url v) by (exists res; auto).
        rewrite (inner_httpGetJson (httpGetJson_responds H)). cbn.
        repeat split; auto.
      * rewrite (inner_httpGetJson (httpGetJson_unparsed _ _ Hres Hres_ok Hbody)). cbn.
        repeat split; auto.
    + rewrite (inner_httpGetJson (httpGetJson_status _ _ Hres Hres_ok)). cbn.
      repeat split; auto; try discriminate.
      intros (r & [= <-] & Hr). apply Hok in Hr. congruence.
  - rewrite (inner_httpGetJson (httpGetJson_rejected _ _ Hres)). cbn.
    repeat split; auto; try discriminate.
    intros (r & [=] & _).
Qed.

(** ** The users request and its projection *)

Lemma inner_getUsers (env : Env) payload :
  responds env users_url payload ->
  Rx.inner (getUsers env) =
    Rx.inner (([Fetch users_url],
               Return (mkObs [Eff ReadJson; Next payload] Complete
                       |> Rx.map (fun users => array_map "users" projectUser users)))).
Proof. intros H. unfold getUsers. rewrite (httpGetJson_responds H). reflexivity. Qed.

Lemma map_throws {A B} (f : A -> Js B) evs a e :
  f a = throw e ->
  Rx.map f (mkObs (effs evs ++ [Next a])%list Complete) = mkObs (effs evs) (Failed e).
Proof.
  intros H. unfold Rx.map. cbn [items ending]. rewrite each_emits, H.
  cbn. rewrite app_nil_r. reflexivity.
Qed.

(** The users stream when the projection throws, and the run it gives. *)
Lemma users_projection_throws (env : Env) payload e :
  responds env users_url payload ->
  array_map "users" projectUser payload = throw e ->
  Rx.inner (getUsers env) = mkObs [Eff (Fetch users_url); Eff ReadJson] (Failed e) /\
  subscription env =
    mkRun [Fetch users_url; ReadJson; ConsoleError error_label (message e);
           ConsoleLog finalize_line]
          [None] [].
Proof.
  intros H He.
  assert (E : getUsers env =
              ([Fetch users_url], Return (mkObs (effs [ReadJson]) (Failed e)))).
  { unfold getUsers. rewrite (httpGetJson_responds H).
    change (mkObs [Eff ReadJson; Next payload] Complete)
      with (mkObs (effs [ReadJson] ++ [Next payload])%list Complete).
    cbn [bind ret app].
    rewrite (map_throws (fun users => array_map "users" projectUser users) _ _ He).
    reflexivity. }
  split.
  - rewrite E. reflexivity.
  - unfold subscription, flow, recovered, chain, selection. rewrite E. reflexivity.
Qed.

(** X4. On a successful response whose payload is an array without [null]
    elements, [getUsers] emits one list, with one projected user per payload
    element, in the payload's order: each holds the element's [id], [name]
    and [email] ([undefined] for a missing one) and nothing else of it. *)
Theorem getUsers_projects_every_element (env : Env) raw :
  responds env users_url (JArr raw) -> Forall readable raw ->
  Rx.inner (getUsers env) =
    mkObs [Eff (Fetch users_url); Eff ReadJson; Next (List.map user_of raw)] Complete /\
  (forall k, nth_error (List.map user_of raw) k = option_map user_of (nth_error raw k)).
Proof.
  intros H Hraw. split.
  - rewrite (inner_getUsers H). unfold Rx.map. cbn [items ending Rx.each].
    rewrite (@array_map_readable _ "users" projectUser user_of raw projectUser_readable Hraw).
    reflexivity.
  - intros k. apply nth_error_map.
Qed.

Lemma getUsers_projects_every_element_witness :
  Rx.inner (getUsers scenario_no_posts) =
    mkObs [Eff (Fetch users_url); Eff ReadJson;
           Next [mkUser (JNum 2) (JStr "Ervin") (JStr "e@f.com")]] Complete.
Proof.
  refine (proj1 (@getUsers_projects_every_element scenario_no_posts [user_two] _ _)).
  - apply responds_array. by_running.
  - repeat constructor.
Defined.

Lemma mapM_project_nullish l :
  Exists (fun v => nullish v = true) l ->
  exists msg, mapM projectUser l = type_error msg.
Proof.
  induction l as [|v l IH]; intros H; [inversion H|].
  destruct (nullish v) eqn:Hv.
  - destruct v; try discriminate Hv; eexists; reflexivity.
  - assert (Hl : Exists (fun v => nullish v = true) l).
    { inversion H as [? ? Hv'|? ? Hl']; subst; [congruence|exact Hl']. }
    destruct (IH Hl) as [msg Hmsg]. exists msg.
    cbn [mapM]. rewrite (projectUser_readable Hv), Hmsg. reflexivity.
Qed.

(** X5. A users payload that is not an array (an object, a string, a
    number, [null]) makes the projection throw a [TypeError]: the run reports
    its message and ends with [null] before the first checkpoint, and no
    posts are requested. *)
Theorem users_payload_must_be_an_array (env : Env) payload :
  responds env users_url payload -> (forall elems, payload <> JArr elems) ->
  exists msg,
    Rx.inner (getUsers env) =
      mkObs [Eff (Fetch users_url); Eff ReadJson] (Failed (mkError TypeError msg)) /\
    subscription env =
      mkRun [Fetch users_url; ReadJson; ConsoleError error_label msg;
             ConsoleLog finalize_line]
            [None] [].
Proof.
  intros H Hpayload.
  assert (Hthrow : exists msg, array_map "users" projectUser payload = type_error msg).
  { destruct payload; try (eexists; reflexivity). destruct (Hpayload elems eq_refl). }
  destruct Hthrow as [msg Hmsg]. exists msg.
  exact (users_projection_throws H Hmsg).
Qed.

Lemma users_payload_must_be_an_array_witness :
  exists msg,
    Rx.inner (getUsers scenario_users_object) =
      mkObs [Eff (Fetch users_url); Eff ReadJson] (Failed (mkError TypeError msg)) /\
    subscription scenario_users_object =
      mkRun [Fetch users_url; ReadJson; ConsoleError error_label msg;
             ConsoleLog finalize_line]
            [None] [].
Proof.
  refine (@users_payload_must_be_an_array scenario_users_object
            (JObj [("users", JArr [])]) _ _).
  - eexists. split; [by_running|]. split; reflexivity.
  - intros elems. discriminate.
Defined.

(** X6. Every element of the users payload is projected before the first
    is selected: a [null] at any position, even after a well-formed first
    user, fails the run with a [TypeError] before the first checkpoint, and
    no posts are requested. *)
Theorem null_user_anywhere_fails_the_run (env : Env) raw :
  responds env users_url (JArr raw) ->
  Exists (fun v => nullish v = true) raw ->
  exists msg,
    subscription env =
      mkRun [Fetch users_url; ReadJson; ConsoleError error_label msg;
             ConsoleLog finalize_line]
            [None] [].
Proof.
  intros H Hnull. destruct (mapM_project_nullish Hnull) as [msg Hmsg]. exists msg.
  exact (proj2 (users_projection_throws (payload := JArr raw) H Hmsg)).
Qed.

Lemma null_user_anywhere_fails_the_run_witness :
  subscription scenario_null_second =
    mkRun [Fetch users_url; ReadJson;
           ConsoleError error_label "Cannot read properties of null (reading 'id')";
           ConsoleLog finalize_line]
          [None] [].
Proof.
  assert (H : responds scenario_null_second users_url (JArr [leanne; JNull])).
  { apply responds_array. by_running. }
  assert (Hnull : Exists (fun v => nullish v = true) [leanne; JNull]).
  { right. left. reflexivity. }
  destruct (null_user_anywhere_fails_the_run H Hnull) as [msg Hmsg].
  rewrite Hmsg. f_equal. f_equal. f_equal.
  assert (E : trace (subscription scenario_null_second) =
              [Fetch users_url; ReadJson;
               ConsoleError error_label "Cannot read properties of null (reading 'id')";
               ConsoleLog finalize_line]) by by_running.
  rewrite Hmsg in E. cbn [trace] in E. injection E as E. rewrite E. reflexivity.
Defined.

(** ** The three URLs *)

Lemma append_cons (c : ascii) (s t : string) : String c s ++ t = String c (s ++ t).
Proof. reflexivity. Qed.

Lemma append_length (s t : string) :
  String.length (s ++ t) = String.length s + String.length t.
Proof.
  induction s as [|c s IH]; [reflexivity|].
  rewrite append_cons. cbn [String.length plus]. rewrite IH. reflexivity.
Qed.

Lemma append_cancel_l (s x y : string) : s ++ x = s ++ y -> x = y.
Proof.
  induction s as [|c s IH]; [exact (fun H => H)|].
  rewrite !append_cons. intros [= H]. auto.
Qed.

Lemma append_cancel_r (t x y : string) : x ++ t = y ++ t -> x = y.
Proof.
  revert y. induction x as [|c x IH]; intros [|d y] H.
  - reflexivity.
  - apply (f_equal String.length) in H. rewrite !append_length in H. cbn in H. lia.
  - apply (f_equal String.length) in H. rewrite !append_length in H. cbn in H. lia.
  - rewrite !append_cons in H. injection H as -> H. rewrite (IH y H). reflexivity.
Qed.

Lemma url_facts :
  (forall a b, posts_url a = posts_url b -> a = b) /\
  (forall a b, comments_url a = comments_url b -> a = b) /\
  (forall a, users_url <> posts_url a) /\
  (forall a, users_url <> comments_url a) /\
  (forall a b, posts_url a <> comments_url b).
Proof.
  unfold posts_url, comments_url, users_url.
  split; [|split; [|split; [|split]]].
  - intros a b H. apply append_cancel_l, append_cancel_l in H.
    exact (append_cancel_r _ _ _ H).
  - intros a b H. apply append_cancel_l, append_cancel_l in H.
    exact (append_cancel_r _ _ _ H).
  - intros a H. apply append_cancel_l in H. vm_compute in H. discriminate H.
  - intros a H. apply append_cancel_l in H. vm_compute in H. discriminate H.
  - intros a b H. apply append_cancel_l in H. vm_compute in H. discriminate H.
Qed.

(** X7. The three kinds of URL never collide: the posts URLs of two ids
    that print differently differ, and so do the comments URLs of two such
    ids; the users URL is no posts or comments URL, and no posts URL is a
    comments URL, whatever the ids. *)
Theorem urls_never_collide :
  (forall a b, posts_url a = posts_url b -> a = b) /\
  (forall a b, comments_url a = comments_url b -> a = b) /\
  (forall a, users_url <> posts_url a) /\
  (forall a, users_url <> comments_url a) /\
  (forall a b, posts_url a <> comments_url b).
Proof. exact url_facts. Qed.

Lemma urls_never_collide_witness :
  posts_url "1" = posts_url (text (JNum 1)) /\ "1" = text (JNum 1).
Proof.
  assert (H : posts_url "1" = posts_url (text (JNum 1))) by reflexivity.
  split; [exact H|]. exact (proj1 urls_never_collide _ _ H).
Defined.

(** ** The chain, stage by stage *)

Lemma printable_text v s : ToString v = Some s -> printable v /\ text v = s.
Proof. intros H. unfold printable, text. rewrite H. split; reflexivity. Qed.

Lemma Sat_quiet_str (Q : string -> Prop) v :
  (forall s, ToString v = Some s -> Q s) -> Sat quiet Q (str v).
Proof. intros H. eapply Sat_weaken; [apply Sat_str|exact H]. Qed.

Section StageByStage.

Variable env : Env.

Lemma settled url :
  exists o, httpGetJson env url = ([Fetch url], Return o) /\
            Shot quiet (responds env url) o.
Proof.
  destruct (env url) as [res|e] eqn:Hres.
  - destruct (ok res) eqn:Hok.
    + destruct (body res) as [v|e] eqn:Hbody.
      * assert (Hr : responds env url v) by (exists res; auto).
        eexists. split; [exact (httpGetJson_responds Hr)|].
        exact (Emits [ReadJson] v eq_refl (Forall_cons _ I (Forall_nil _)) Hr).
      * eexists. split; [exact (httpGetJson_unparsed _ _ Hres Hok Hbody)|].
        exact (Fails [ReadJson] e eq_refl (Forall_cons _ I (Forall_nil _))).
    + eexists. split; [exact (httpGetJson_status _ _ Hres Hok)|].
      exact (Fails [] _ eq_refl (Forall_nil _)).
  - eexists. split; [exact (httpGetJson_rejected _ _ Hres)|].
    exact (Fails [] _ eq_refl (Forall_nil _)).
Qed.

Lemma check_user_passes o :
  first_read env o -> Sat quiet (fun _ => user_selected env o) (check_user o).
Proof.
  intros (raw & Hraw & Hread & Ho). destruct o as [u|]; [|apply Sat_throw].
  destruct raw as [|u0 us]; [discriminate|]. injection Ho as ->.
  cbn [check_user user_of user_id user_name user_email].
  apply Sat_bind with (Q := fun s => ToString (field u0 "id") = Some s);
    [apply Sat_quiet_str; auto|].
  intros i Hi.
  apply Sat_bind with (Q := fun s => ToString (field u0 "name") = Some s);
    [apply Sat_quiet_str; auto|].
  intros n Hn.
  apply Sat_bind with (Q := fun s => ToString (field u0 "email") = Some s);
    [apply Sat_quiet_str; auto|].
  intros e He.
  apply Sat_console_log; [exact I|].
  exists u0, us. split; [|reflexivity].
  repeat split; try assumption;
    [exact (proj1 (printable_text _ Hi))|exact (proj1 (printable_text _ Hn))
    |exact (proj1 (printable_text _ He))].
Qed.

Lemma selection_shape :
  exists src, selection env = ([Fetch users_url], Return src) /\
              Shot quiet (user_selected env) src.
Proof.
  destruct (settled users_url) as (o & Ho & Hshot).
  unfold selection, getUsers. rewrite Ho. eexists. split; [reflexivity|].
  apply Shot_tap with (Q := first_read env); [|exact check_user_passes].
  apply Shot_map with (Q := users_read env).
  - apply Shot_tap with (Q := users_read env).
    + apply Shot_map with (Q := responds env users_url); [exact Hshot|].
      intros v Hv.
      eapply Sat_weaken; [apply Sat_array_map with (g := user_of), projectUser_cases|].
      intros users (l & -> & Hl & ->). exists l. auto.
    + intros users Husers. apply Sat_console_log; [exact I|exact Husers].
  - intros users (raw & Hraw & Hread & ->). apply Sat_ret. exists raw. auto.
Qed.

Lemma posts_of_shape o :
  user_selected env o ->
  exists u0 us src,
    users_stage_passed env u0 us /\
    posts_of env o = ([Fetch (posts_url (text (field u0 "id")))], Return src) /\
    Shot quiet (posts_read env) src.
Proof.
  intros (u0 & us & Hpass & ->). pose proof Hpass as (Hu & Hus & Hid & Hn & He).
  destruct (settled (posts_url (text (field u0 "id")))) as (o & Ho & Hshot).
  exists u0, us. eexists. split; [exact Hpass|].
  unfold posts_of, getUserPosts. cbn [user_of user_id].
  rewrite (str_printable _ Hid), bind_ret_l, Ho. split; [reflexivity|].
  apply Shot_map with (Q := responds env (posts_url (text (field u0 "id"))));
    [exact Hshot|].
  intros v Hv.
  apply Sat_bind with
    (Q := fun ps => exists l, v = JArr l /\ Forall readable l /\ ps = List.map post_of l);
    [apply Sat_array_map, projectPost_cases|].
  intros ps (l & -> & Hl & ->). apply Sat_ret.
  exists u0, us, l. cbn. auto.
Qed.

Lemma comments_of_shape up :
  posts_read env up ->
  (exists e, Rx.inner (comments_of env up) = mkObs [] (Failed e)) \/
  exists u0 us p0 ps src i t,
    posts_stage_passed env u0 us p0 ps /\
    up_user up = user_of u0 /\
    comments_of env up =
      ([ConsoleLog (post_line i t); Fetch (comments_url (text (field p0 "id")))],
       Return src) /\
    Shot quiet (fun cs => exists raw, responds env (comments_url (text (field p0 "id")))
                                        (JArr raw) /\
                                      Forall readable raw /\
                                      cs = Some (mkResult (user_of u0) (post_of p0)
                                                   (List.map comment_of raw)))
         src.
Proof.
  intros (u0 & us & praw & Hpass & Hu & Hposts & Hread & Hps).
  unfold comments_of, getPostComments. rewrite Hps.
  destruct praw as [|p0 ps]; cbn [nth_error List.map];
    [left; eexists; reflexivity|].
  cbn [post_of post_id post_title]. unfold str.
  destruct (ToString (field p0 "id")) as [i|] eqn:Hi; [|left; eexists; reflexivity].
  destruct (ToString (field p0 "title")) as [t|] eqn:Ht; [|left; eexists; reflexivity].
  right.
  destruct (printable_text _ Hi) as [Hpi Hti]. destruct (printable_text _ Ht) as [Hpt _].
  subst i.
  destruct (settled (comments_url (text (field p0 "id")))) as (o & Ho & Hshot).
  exists u0, us, p0, ps. eexists. exists (text (field p0 "id")), t.
  split; [exact (conj Hpass (conj Hposts (conj Hread (conj Hpi Hpt))))|].
  split; [exact Hu|].
  rewrite !bind_ret_l, Ho. split; [reflexivity|].
  apply Shot_map with (Q := responds env (comments_url (text (field p0 "id"))));
    [exact Hshot|].
  intros v Hv.
  apply Sat_bind with
    (Q := fun cs => exists l, v = JArr l /\ Forall readable l /\
                    cs = List.map comment_of l);
    [apply Sat_array_map, projectComment_cases|].
  intros cs (l & -> & Hl & ->). apply Sat_ret.
  exists l. rewrite Hu. auto.
Qed.

End StageByStage.

Lemma switchMap_emits {A B} (f : A -> Js (Observable B)) evs a :
  Rx.switchMap f (mkObs (effs evs ++ [Next a])%list Complete) =
  mkObs (effs evs ++ items (Rx.inner (f a)))%list (ending (Rx.inner (f a))).
Proof. exact (each_emits (fun x => Rx.inner (f x)) evs a). Qed.

Lemma switchMap_fails {A B} (f : A -> Js (Observable B)) evs e :
  Rx.switchMap f (mkObs (effs evs) (Failed e)) = mkObs (effs evs) (Failed e).
Proof. exact (each_fails (fun x => Rx.inner (f x)) evs e). Qed.

Lemma tap_fails {A} (f : A -> Js unit) evs e :
  Rx.tap f (mkObs (effs evs) (Failed e)) = mkObs (effs evs) (Failed e).
Proof. exact (each_fails (fun x => Rx.inner (f x ;;; ret (Rx.of_ x))) evs e). Qed.

Lemma tap_log_posts evs up :
  Rx.tap log_posts (mkObs (effs evs ++ [Next up])%list Complete) =
  mkObs (effs (evs ++ [ConsoleLog (posts_line (List.length (up_posts up)))]) ++
         [Next up])%list Complete.
Proof.
  unfold Rx.tap. cbn [items ending]. rewrite each_emits.
  rewrite effs_app, <- app_assoc. reflexivity.
Qed.

Lemma effs_cons {A} ev evs : @effs A (ev :: evs) = Eff ev :: effs evs.
Proof. reflexivity. Qed.

Ltac flatten_events :=
  repeat first
    [ rewrite effs_app | rewrite effs_cons | rewrite <- app_assoc
    | rewrite <- app_comm_cons | rewrite app_nil_r | rewrite app_nil_l ].

(** Every run's chain has one of the four shapes. *)
Lemma chain_shape (env : Env) : ChainShape env (Rx.inner (chain env)).
Proof.
  destruct (selection_shape env) as (src & Hsel & Hsrc).
  unfold chain. rewrite Hsel. cbn [bind ret Rx.inner app fst snd].
  destruct Hsrc as [evs a -> Hevs Ha|evs e -> Hevs].
  2:{ rewrite switchMap_fails, tap_fails, switchMap_fails. cbn [items ending].
      rewrite <- effs_app. exact (EndsAtUsers env e Hevs). }
  destruct (posts_of_shape Ha) as (u0 & us & src2 & Hpass & Hposts & Hsrc2).
  rewrite switchMap_emits, Hposts. cbn [Rx.inner items ending].
  destruct Hsrc2 as [evs2 up -> Hevs2 Hup|evs2 e -> Hevs2]; cbn [items ending].
  2:{ replace (mkObs (effs evs ++ effs [Fetch (posts_url (text (field u0 "id")))] ++
                      effs evs2)%list (Failed e))
        with (mkObs (A := UserPosts)
                (effs (evs ++ Fetch (posts_url (text (field u0 "id"))) :: evs2))
                (Failed e))
        by (flatten_events; reflexivity).
      rewrite tap_fails, switchMap_fails. cbn [items ending].
      rewrite <- effs_app. exact (EndsAtPosts e Hpass Hevs Hevs2). }
  replace (mkObs (effs evs ++ effs [Fetch (posts_url (text (field u0 "id")))] ++
                  effs evs2 ++ [Next up])%list Complete)
    with (mkObs (effs (evs ++ Fetch (posts_url (text (field u0 "id"))) :: evs2) ++
                 [Next up])%list Complete)
    by (flatten_events; reflexivity).
  rewrite tap_log_posts, switchMap_emits.
  set (line := ConsoleLog (posts_line (List.length (up_posts up)))).
  destruct (comments_of_shape Hup)
    as [[e He]|(u0' & us' & p0 & ps & src3 & i & t & Hpass' & Hu & Hc & Hsrc3)].
  - rewrite He. cbn [items ending]. rewrite app_nil_r, <- effs_app, <- app_assoc.
    cbn [app].
    apply (EndsAtPosts e Hpass Hevs).
    apply Forall_app. split; [exact Hevs2|]. repeat constructor.
  - assert (E : u0' = u0 /\ us' = us).
    { destruct Hpass as (H1 & _). destruct Hpass' as ((H2 & _) & _).
      pose proof (responds_functional H2 H1) as [= -> ->]. auto. }
    destruct E as [-> ->].
    rewrite Hc. cbn [Rx.inner items ending].
    destruct Hsrc3 as [evs3 r -> Hevs3 (raw & Hraw & Hread & ->)|evs3 e -> Hevs3];
      cbn [items ending].
    + replace (mkObs _ Complete)
        with (mkObs
                (effs (Fetch users_url :: evs ++
                       Fetch (posts_url (text (field u0 "id"))) ::
                       (evs2 ++ [line; ConsoleLog (post_line i t)]) ++
                       Fetch (comments_url (text (field p0 "id"))) :: evs3) ++
                 [Next (Some (mkResult (user_of u0) (post_of p0)
                                (List.map comment_of raw)))])%list
                Complete)
        by (flatten_events; reflexivity).
      refine (EndsWithResult (conj Hpass' (conj Hraw Hread)) Hevs _ Hevs3).
      apply Forall_app. split; [exact Hevs2|]. repeat constructor.
    + replace (mkObs _ (Failed e))
        with (mkObs (A := option PipelineResult)
                (effs (Fetch users_url :: evs ++
                       Fetch (posts_url (text (field u0 "id"))) ::
                       (evs2 ++ [line; ConsoleLog (post_line i t)]) ++
                       Fetch (comments_url (text (field p0 "id"))) :: evs3))
                (Failed e))
        by (flatten_events; reflexivity).
      refine (EndsAtComments e Hpass' Hevs _ Hevs3).
      apply Forall_app. split; [exact Hevs2|]. repeat constructor.
Qed.

(** ** What every run requests, receives and reports *)

Lemma requests_app t1 t2 : requests (t1 ++ t2) = (requests t1 ++ requests t2)%list.
Proof.
  induction t1 as [|ev t1 IH]; [reflexivity|].
  destruct ev; cbn; rewrite IH; reflexivity.
Qed.

Lemma requests_quiet t : Forall quiet t -> requests t = [].
Proof.
  induction 1 as [|ev t Hev _ IH]; [reflexivity|].
  destruct ev; cbn; [destruct Hev|exact IH..].
Qed.

Lemma summary_quiet o : Forall quiet (fst (on_result o)).
Proof.
  eapply Forall_impl; [|exact (summary_events o)].
  intros ev []; exact I.
Qed.

(** The requests of a run are those of its chain. *)
Lemma requests_of_run (env : Env) evs :
  (exists a, Rx.inner (chain env) = mkObs (effs evs ++ [Next a])%list Complete) \/
  (exists e, Rx.inner (chain env) = mkObs (effs evs) (Failed e)) ->
  requests (trace (subscription env)) = requests evs.
Proof.
  rewrite subscription_run. intros [[a H]|[e H]].
  - destruct (run_emits _ _ H) as [_ ->]. cbn [trace].
    rewrite !requests_app, (requests_quiet (summary_quiet a)). cbn.
    rewrite app_nil_r. reflexivity.
  - destruct (run_fails _ H) as [_ ->]. cbn [trace].
    rewrite requests_app. cbn. rewrite app_nil_r. reflexivity.
Qed.

Ltac count_requests :=
  cbn [requests]; rewrite ?requests_app; cbn [requests];
  repeat (rewrite requests_quiet by assumption);
  rewrite ?requests_app; cbn [requests app];
  repeat (rewrite requests_quiet by assumption); cbn [app].

(** X8. Every run requests the users first; it requests posts only once
    the users stage has passed, and then those of the selected user's printed
    id; it requests comments only once the posts stage has passed, and then
    those of the first post's printed id. A run makes no other request: at
    most three, never the same URL twice, none again after a failure. *)
Theorem requests_follow_the_stages (env : Env) :
  (requests (trace (subscription env)) = [users_url] \/
   exists u0 us,
     users_stage_passed env u0 us /\
     (requests (trace (subscription env)) =
        [users_url; posts_url (text (field u0 "id"))] \/
      exists p0 ps,
        posts_stage_passed env u0 us p0 ps /\
        requests (trace (subscription env)) =
          [users_url; posts_url (text (field u0 "id"));
           comments_url (text (field p0 "id"))])) /\
  NoDup (requests (trace (subscription env))).
Proof.
  destruct url_facts as (_ & _ & Hup & Huc & Hpc).
  assert (D2 : forall a, NoDup [users_url; posts_url a]).
  { intros a. repeat constructor; cbn; intuition. eapply Hup; eauto. }
  assert (D3 : forall a b, NoDup [users_url; posts_url a; comments_url b]).
  { intros a b. repeat constructor; cbn; intuition.
    - eapply Hup; eauto.
    - eapply Huc; eauto.
    - eapply Hpc; eauto. }
  pose proof (chain_shape env) as Hshape.
  remember (Rx.inner (chain env)) as o eqn:Ho. symmetry in Ho.
  destruct Hshape
    as [evs e Hevs|u0 us evs1 evs2 e Hpass H1 H2
       |u0 us p0 ps evs1 evs2 evs3 e Hpass H1 H2 H3
       |u0 us p0 ps cs evs1 evs2 evs3 Hpass H1 H2 H3].
  - rewrite (requests_of_run _ (or_intror (ex_intro _ e Ho))). count_requests.
    split; [left; reflexivity|repeat constructor; intros []].
  - rewrite (requests_of_run _ (or_intror (ex_intro _ e Ho))). count_requests.
    split; [|apply D2]. right. exists u0, us. split; [exact Hpass|]. left. reflexivity.
  - rewrite (requests_of_run _ (or_intror (ex_intro _ e Ho))). count_requests.
    split; [|apply D3]. right. exists u0, us. split; [exact (proj1 Hpass)|].
    right. exists p0, ps. split; [exact Hpass|reflexivity].
  - rewrite (requests_of_run _ (or_introl (ex_intro _ _ Ho))). count_requests.
    split; [|apply D3]. right. exists u0, us. split; [exact (proj1 (proj1 Hpass))|].
    right. exists p0, ps. split; [exact (proj1 Hpass)|reflexivity].
Qed.

Lemma bind_console_log {Y} line (k : Js Y) :
  console_log line ;;; k = (ConsoleLog line :: fst k, snd k).
Proof. unfold bind, console_log. destruct k. reflexivity. Qed.

Lemma stage_event_not_header ev : stage_event ev -> is_header ev = false.
Proof.
  destruct 1; try reflexivity;
    cbv beta iota delta
      [is_header users_line user_line posts_line post_line header_line nl
       String.append String.eqb Ascii.eqb Bool.eqb ascii_of_nat ascii_of_pos ascii_of_N];
    reflexivity.
Qed.

Lemma not_header_not_in t :
  Forall (fun ev => is_header ev = false) t -> ~ In (ConsoleLog header_line) t.
Proof.
  intros H Hin. rewrite Forall_forall in H. specialize (H _ Hin).
  cbn in H. rewrite String.eqb_refl in H. discriminate H.
Qed.

(** X9. A run ends in exactly one of two ways. Either the subscriber
    receives a result, the summary is printed and no error line is: or it
    receives [null], exactly one error line is printed, with the message of
    the error that ended the chain, and the summary is not. *)
Theorem result_or_error (env : Env) :
  (exists r,
     received (subscription env) = [Some r] /\
     List.filter is_console_error (trace (subscription env)) = [] /\
     In (ConsoleLog header_line) (trace (subscription env))) \/
  (exists e,
     received (subscription env) = [None] /\
     List.filter is_console_error (trace (subscription env)) =
       [ConsoleError error_label (message e)] /\
     ~ In (ConsoleLog header_line) (trace (subscription env))).
Proof.
  rewrite subscription_run.
  destruct (chain_shot env) as [evs a H Hevs (r & -> & _)|evs e H Hevs].
  - left. exists r. destruct (run_emits _ _ H) as [_ ->]. cbn [received trace].
    split; [reflexivity|]. split.
    + rewrite !filter_app, (filter_error_stage Hevs), filter_error_summary. reflexivity.
    + apply in_or_app. right. apply in_or_app. left.
      unfold on_result. rewrite bind_console_log. left. reflexivity.
  - right. exists e. destruct (run_fails _ H) as [_ ->]. cbn [received trace].
    split; [reflexivity|]. split.
    + rewrite filter_app, (filter_error_stage Hevs). reflexivity.
    + apply not_header_not_in. apply Forall_app. split.
      * eapply Forall_impl; [|exact Hevs]. exact stage_event_not_header.
      * repeat constructor.
Qed.

(** The summary of a result whose user and post were printed at their
    checkpoints: its first lines cannot throw. *)
Lemma summary_start u0 p0 cs :
  user_ok u0 -> post_ok p0 ->
  on_result (Some (mkResult (user_of u0) (post_of p0) cs)) =
    (ConsoleLog header_line ::
     ConsoleLog (summary_user_line (text (field u0 "id")) (text (field u0 "name"))
                                   (text (field u0 "email"))) ::
     ConsoleLog (summary_post_line (text (field p0 "id")) (text (field p0 "title"))) ::
     ConsoleLog (summary_count_line (List.length cs)) ::
     fst (summary_tail cs),
     snd (summary_tail cs)).
Proof.
  intros (Hui & Hun & Hue) (Hpi & Hpt). unfold on_result, summary_tail.
  cbn [user post comments].
  cbn [user_of post_of user_id user_name user_email post_id post_title].
  rewrite (str_printable _ Hui), (str_printable _ Hun), (str_printable _ Hue).
  rewrite (str_printable _ Hpi), (str_printable _ Hpt).
  repeat (first [rewrite bind_console_log | rewrite bind_ret_l]; cbn [fst snd]).
  reflexivity.
Qed.

Lemma summary_tail_prints c0 rest :
  comment_ok c0 ->
  summary_tail (comment_of c0 :: rest) =
    ([ConsoleLog (summary_comment_line (text (field c0 "id")) (text (field c0 "name"))
                                       (text (field c0 "email")));
      ConsoleLog footer_line],
     Return tt).
Proof.
  intros (Hi & Hn & He). unfold summary_tail.
  cbn [nth_error comment_of comment_id comment_name comment_email].
  rewrite (str_printable _ Hi), (str_printable _ Hn), (str_printable _ He).
  reflexivity.
Qed.

Lemma summary_tail_throws c0 rest :
  ~ comment_ok c0 -> summary_tail (comment_of c0 :: rest) = ([], Throw cannot_print).
Proof.
  intros Hnot. unfold summary_tail, str.
  cbn [nth_error comment_of comment_id comment_name comment_email].
  destruct (ToString (field c0 "id")) as [i|] eqn:Hi; [|reflexivity].
  destruct (ToString (field c0 "name")) as [n|] eqn:Hn; [|reflexivity].
  destruct (ToString (field c0 "email")) as [e|] eqn:He; [|reflexivity].
  destruct Hnot. repeat split; eapply printable_text; eassumption.
Qed.

(** The run of a network on which the three stages pass. *)
Lemma run_of_success (env : Env) u0 us p0 ps cs :
  succeeds env u0 us p0 ps cs ->
  let r := mkResult (user_of u0) (post_of p0) (List.map comment_of cs) in
  subscription env =
    mkRun (checkpoints us (text (field u0 "id")) (text (field u0 "name"))
             (text (field u0 "email")) ps (text (field p0 "id"))
             (text (field p0 "title")) ++
           [ReadJson; ConsoleLog header_line;
            ConsoleLog (summary_user_line (text (field u0 "id")) (text (field u0 "name"))
                                          (text (field u0 "email")));
            ConsoleLog (summary_post_line (text (field p0 "id"))
                                          (text (field p0 "title")));
            ConsoleLog (summary_count_line (List.length cs))] ++
           fst (summary_tail (List.map comment_of cs)) ++
           [ConsoleLog finalize_line])
          [Some r]
          (thrown (summary_tail (List.map comment_of cs))).
Proof.
  intros (((Hu & Hus & Huok) & Hp & Hps & Hpok) & Hc & Hcs) r.
  pose proof Huok as (Hui & Hun & Hue). pose proof Hpok as (Hpi & Hpt).
  pose proof (success_run Hu Hus Hui Hun Hue Hp Hps Hpi Hpt Hc Hcs) as H.
  cbv zeta in H. fold r in H. rewrite H. unfold thrown, r.
  rewrite (summary_start _ Huok Hpok). cbn [fst snd].
  rewrite length_map. cbn [app]. reflexivity.
Qed.

(** X10. An error reaches the host from one place only: the first-comment
    line of the summary, when a field of the first comment cannot be
    printed. The user and post lines cannot throw, their fields having been
    printed at the checkpoints. The run then hands its result over all the
    same, prints the summary up to the count line, and finalizes. *)
Theorem host_errors_come_from_the_first_comment (env : Env) e :
  In e (uncaught (subscription env)) ->
  exists u0 us p0 ps c cs,
    succeeds env u0 us p0 ps (c :: cs) /\ ~ comment_ok c /\
    e = cannot_print /\
    subscription env =
      mkRun (checkpoints us (text (field u0 "id")) (text (field u0 "name"))
               (text (field u0 "email")) ps (text (field p0 "id"))
               (text (field p0 "title")) ++
             [ReadJson; ConsoleLog header_line;
              ConsoleLog (summary_user_line (text (field u0 "id"))
                            (text (field u0 "name")) (text (field u0 "email")));
              ConsoleLog (summary_post_line (text (field p0 "id"))
                            (text (field p0 "title")));
              ConsoleLog (summary_count_line (S (List.length cs)));
              ConsoleLog finalize_line])
            [Some (mkResult (user_of u0) (post_of p0)
                     (List.map comment_of (c :: cs)))]
            [cannot_print].
Proof.
  intros Hin. pose proof (chain_shape env) as Hshape.
  remember (Rx.inner (chain env)) as o eqn:Ho. symmetry in Ho.
  destruct Hshape
    as [evs e' Hevs|u0 us evs1 evs2 e' Hpass H1 H2
       |u0 us p0 ps evs1 evs2 evs3 e' Hpass H1 H2 H3
       |u0 us p0 ps cs evs1 evs2 evs3 Hpass H1 H2 H3].
  1-3: rewrite subscription_run in Hin; destruct (run_fails _ Ho) as [_ E];
       rewrite E in Hin; destruct Hin.
  clear Ho. pose proof (run_of_success Hpass) as E. cbv zeta in E.
  rewrite E in Hin. cbn [uncaught] in Hin.
  destruct cs as [|c cs].
  - destruct Hin.
  - cbn [List.map] in Hin, E.
    assert (Hc : ~ comment_ok c).
    { intros Hok. rewrite (summary_tail_prints _ Hok) in Hin. destruct Hin. }
    rewrite (summary_tail_throws _ Hc) in Hin, E.
    destruct Hin as [<-|[]].
    exists u0, us, p0, ps, c, cs. split; [exact Hpass|]. split; [exact Hc|].
    split; [reflexivity|]. rewrite E. reflexivity.
Qed.

Lemma host_errors_come_from_the_first_comment_witness :
  In cannot_print (uncaught (subscription scenario_shadowed)) /\
  exists u0 us p0 ps c cs,
    succeeds scenario_shadowed u0 us p0 ps (c :: cs) /\ ~ comment_ok c /\
    received (subscription scenario_shadowed) =
      [Some (mkResult (user_of u0) (post_of p0) (List.map comment_of (c :: cs)))].
Proof.
  assert (H : In cannot_print (uncaught (subscription scenario_shadowed)))
    by (left; by_running).
  split; [exact H|].
  destruct (host_errors_come_from_the_first_comment _ _ H)
    as (u0 & us & p0 & ps & c & cs & Hs & Hc & _ & E).
  exists u0, us, p0, ps, c, cs. split; [exact Hs|]. split; [exact Hc|].
  rewrite E. reflexivity.
Defined.

(** X11. The subscriber receives a result exactly when the three stages
    pass: the three requests succeed, no payload element is [null], and the
    selected user and post can be printed at their checkpoints. The result is
    then the composition of the three projections; in every other run the
    subscriber receives [null]. *)
Theorem result_exactly_on_success (env : Env) :
  (forall r,
     received (subscription env) = [Some r] <->
     exists u0 us p0 ps cs,
       succeeds env u0 us p0 ps cs /\
       r = mkResult (user_of u0) (post_of p0) (List.map comment_of cs)) /\
  ((forall u0 us p0 ps cs, ~ succeeds env u0 us p0 ps cs) ->
   received (subscription env) = [None]).
Proof.
  pose proof (chain_shape env) as Hshape.
  remember (Rx.inner (chain env)) as o eqn:Ho. symmetry in Ho.
  assert (Hback : forall u0 us p0 ps cs,
             succeeds env u0 us p0 ps cs ->
             received (subscription env) =
               [Some (mkResult (user_of u0) (post_of p0) (List.map comment_of cs))]).
  { intros u0 us p0 ps cs Hs. pose proof (run_of_success Hs) as E. cbv zeta in E.
    rewrite E. reflexivity. }
  destruct Hshape
    as [evs e' Hevs|u0 us evs1 evs2 e' Hpass H1 H2
       |u0 us p0 ps evs1 evs2 evs3 e' Hpass H1 H2 H3
       |u0 us p0 ps cs evs1 evs2 evs3 Hpass H1 H2 H3].
  1-3: assert (E : received (subscription env) = [None])
         by (rewrite subscription_run; destruct (run_fails _ Ho) as [_ ->];
             reflexivity);
       (split; [|intros _; exact E]);
       intros r; split;
         [rewrite E; discriminate
         |intros (u & us' & p & ps' & cs & Hs & ->);
          rewrite (Hback _ _ _ _ _ Hs) in E; discriminate E].
  split.
  - intros r. split.
    + intros Hr. rewrite (Hback _ _ _ _ _ Hpass) in Hr. injection Hr as <-.
      exists u0, us, p0, ps, cs. auto.
    + intros (u & us' & p & ps' & cs' & Hs & ->). exact (Hback _ _ _ _ _ Hs).
  - intros Hnone. destruct (Hnone _ _ _ _ _ Hpass).
Qed.

Lemma result_exactly_on_success_witness :
  succeeds scenario leanne [] post_t1 [] [comment_c] /\
  received (subscription scenario) =
    [Some (mkResult (user_of leanne) (post_of post_t1) [comment_of comment_c])].
Proof.
  assert (H : succeeds scenario leanne [] post_t1 [] [comment_c]).
  { repeat split; try (apply responds_array; by_running); repeat constructor. }
  split; [exact H|].
  apply (proj1 (result_exactly_on_success scenario)).
  exists leanne, [], post_t1, [], [comment_c]. split; [exact H|reflexivity].
Defined.

(** X12. A successful run on a post with comments, event by event: the
    users request and count, the selected user, the posts request and count,
    the first post, the comments request, then the summary (user, post,
    number of comments, first comment) and the finalization; the count lines
    give the lengths of the payloads and the first-comment line shows the
    comment at index 0. *)
Theorem successful_run_in_order (env : Env) u0 us p0 ps c cs :
  succeeds env u0 us p0 ps (c :: cs) -> comment_ok c ->
  subscription env =
    mkRun [Fetch users_url; ReadJson;
           ConsoleLog (users_line (S (List.length us)));
           ConsoleLog (user_line (text (field u0 "id")) (text (field u0 "name"))
                                 (text (field u0 "email")));
           Fetch (posts_url (text (field u0 "id"))); ReadJson;
           ConsoleLog (posts_line (S (List.length ps)));
           ConsoleLog (post_line (text (field p0 "id")) (text (field p0 "title")));
           Fetch (comments_url (text (field p0 "id"))); ReadJson;
           ConsoleLog header_line;
           ConsoleLog (summary_user_line (text (field u0 "id")) (text (field u0 "name"))
                                         (text (field u0 "email")));
           ConsoleLog (summary_post_line (text (field p0 "id"))
                                         (text (field p0 "title")));
           ConsoleLog (summary_count_line (S (List.length cs)));
           ConsoleLog (summary_comment_line (text (field c "id")) (text (field c "name"))
                                            (text (field c "email")));
           ConsoleLog footer_line;
           ConsoleLog finalize_line]
          [Some (mkResult (user_of u0) (post_of p0) (List.map comment_of (c :: cs)))]
          [].
Proof.
  intros Hs Hc. pose proof (run_of_success Hs) as E. cbv zeta in E.
  cbn [List.map] in E. rewrite (summary_tail_prints _ Hc) in E.
  rewrite E. reflexivity.
Qed.

Lemma successful_run_in_order_witness :
  succeeds scenario leanne [] post_t1 [] [comment_c] /\
  trace (subscription scenario) =
    [Fetch users_url; ReadJson; ConsoleLog (users_line 1);
     ConsoleLog (user_line "1" "Leanne" "a@b.com");
     Fetch (posts_url "1"); ReadJson; ConsoleLog (posts_line 1);
     ConsoleLog (post_line "1" "T1");
     Fetch (comments_url "1"); ReadJson;
     ConsoleLog header_line;
     ConsoleLog (summary_user_line "1" "Leanne" "a@b.com");
     ConsoleLog (summary_post_line "1" "T1");
     ConsoleLog (summary_count_line 1);
     ConsoleLog (summary_comment_line "1" "C" "c@d.com");
     ConsoleLog footer_line;
     ConsoleLog finalize_line].
Proof.
  assert (H : succeeds scenario leanne [] post_t1 [] [comment_c]).
  { repeat split; try (apply responds_array; by_running); repeat constructor. }
  assert (Hc : comment_ok comment_c) by (repeat split).
  split; [exact H|].
  rewrite (successful_run_in_order H Hc). reflexivity.
Defined.

(** ** What a run does not depend on *)

Lemma each_ext {A B} (k1 k2 : A -> Observable B) l e :
  (forall a, k1 a = k2 a) -> Rx.each k1 l e = Rx.each k2 l e.
Proof.
  intros H. induction l as [|[ev|a] l IH]; cbn; [reflexivity|rewrite IH; reflexivity|].
  rewrite H, IH. reflexivity.
Qed.

(** The chain is that of its selection and of its two dependent stages. *)
Lemma chain_ext (env1 env2 : Env) :
  selection env1 = selection env2 ->
  (forall o, posts_of env1 o = posts_of env2 o) ->
  (forall up, comments_of env1 up = comments_of env2 up) ->
  subscription env1 = subscription env2.
Proof.
  intros Hsel Hposts Hcomments.
  assert (E : chain env1 = chain env2).
  { unfold chain. rewrite Hsel. destruct (selection env2) as [evs [src|e]]; [|reflexivity].
    cbn [bind ret]. do 2 f_equal.
    assert (ET : Rx.switchMap (posts_of env1) src = Rx.switchMap (posts_of env2) src).
    { unfold Rx.switchMap. apply each_ext. intros a. rewrite Hposts. reflexivity. }
    rewrite ET. unfold Rx.switchMap at 1 3. apply each_ext.
    intros a. rewrite Hcomments. reflexivity. }
  unfold subscription, flow, recovered. rewrite E. reflexivity.
Qed.

(** The selection on a payload whose elements can be read. *)
Lemma selection_of_payload (env : Env) raw :
  responds env users_url (JArr raw) -> Forall readable raw ->
  selection env =
    ([Fetch users_url],
     Return (Rx.tap check_user
               (mkObs [Eff ReadJson; Eff (ConsoleLog (users_line (List.length raw)));
                       Next (nth_error (List.map user_of raw) 0)] Complete))).
Proof.
  intros H Hraw. unfold selection, getUsers. run_stage.
  rewrite ?length_map. reflexivity.
Qed.

Section ElsewhereAlike.

Variables env1 env2 : Env.
Hypothesis elsewhere : forall url, url <> users_url -> env1 url = env2 url.

Lemma posts_of_elsewhere o : posts_of env1 o = posts_of env2 o.
Proof.
  destruct o as [u|]; [|reflexivity]. unfold posts_of, getUserPosts, str.
  destruct (ToString (user_id u)) as [uid|]; [|reflexivity].
  rewrite !bind_ret_l.
  rewrite (@httpGetJson_local env1 env2 (posts_url uid)); [reflexivity|].
  apply elsewhere. intros H. exact (proj1 (proj2 (proj2 url_facts)) uid (eq_sym H)).
Qed.

Lemma comments_of_elsewhere up : comments_of env1 up = comments_of env2 up.
Proof.
  unfold comments_of, getPostComments, str.
  destruct (nth_error (up_posts up) 0) as [p|]; [|reflexivity].
  destruct (ToString (post_id p)) as [pid|]; [|reflexivity].
  destruct (ToString (post_title p)) as [t|]; [|reflexivity].
  rewrite !bind_ret_l.
  rewrite (@httpGetJson_local env1 env2 (comments_url pid)); [reflexivity|].
  apply elsewhere. intros H.
  exact (proj1 (proj2 (proj2 (proj2 url_facts))) pid (eq_sym H)).
Qed.

End ElsewhereAlike.

(** X13. Of the users payload a run uses the first element and the number
    of elements: two networks that differ only in the users after the first,
    in equal number and none of them [null], give the same run. *)
Theorem other_users_are_only_counted (env1 env2 : Env) u us1 us2 :
  (forall url, url <> users_url -> env1 url = env2 url) ->
  responds env1 users_url (JArr (u :: us1)) ->
  responds env2 users_url (JArr (u :: us2)) ->
  Forall readable (u :: us1) -> Forall readable us2 ->
  List.length us1 = List.length us2 ->
  subscription env1 = subscription env2.
Proof.
  intros Helse H1 H2 Hr1 Hr2 Hlen.
  assert (Hr2' : Forall readable (u :: us2)).
  { constructor; [exact (Forall_inv Hr1)|exact Hr2]. }
  apply chain_ext.
  - rewrite (selection_of_payload H1 Hr1), (selection_of_payload H2 Hr2').
    cbn [List.length List.map nth_error]. rewrite Hlen. reflexivity.
  - exact (@posts_of_elsewhere env1 env2 Helse).
  - exact (@comments_of_elsewhere env1 env2 Helse).
Qed.

Lemma other_users_are_only_counted_witness :
  responds scenario_two_users users_url (JArr [leanne; user_two]) /\
  responds scenario_other_second users_url (JArr [leanne; comment_c]) /\
  subscription scenario_two_users = subscription scenario_other_second.
Proof.
  assert (H1 : responds scenario_two_users users_url (JArr [leanne; user_two])).
  { apply responds_array. by_running. }
  assert (H2 : responds scenario_other_second users_url (JArr [leanne; comment_c])).
  { apply responds_array. by_running. }
  split; [exact H1|]. split; [exact H2|].
  refine (@other_users_are_only_counted scenario_two_users scenario_other_second
            leanne [user_two] [comment_c] _ H1 H2 _ _ eq_refl).
  - intros url Hurl. unfold scenario_two_users, scenario_other_second, network.
    cbn [List.find fst snd].
    destruct (String.eqb_spec users_url url) as [E|_]; [destruct (Hurl (eq_sym E))|].
    reflexivity.
  - repeat constructor.
  - repeat constructor.
Defined.

Lemma same_read_user v w : same_read v w -> projectUser v = projectUser w.
Proof.
  intros (Hv & Hw & Hi & Hn & He & _).
  rewrite (projectUser_readable Hv), (projectUser_readable Hw).
  unfold user_of. rewrite Hi, Hn, He. reflexivity.
Qed.

Lemma same_read_post v w : same_read v w -> projectPost v = projectPost w.
Proof.
  intros (Hv & Hw & Hi & _ & _ & Ht).
  rewrite (projectPost_readable Hv), (projectPost_readable Hw).
  unfold post_of. rewrite Hi, Ht. reflexivity.
Qed.

Lemma same_read_comment v w : same_read v w -> projectComment v = projectComment w.
Proof.
  intros (Hv & Hw & Hi & Hn & He & _).
  rewrite (projectComment_readable Hv), (projectComment_readable Hw).
  unfold comment_of. rewrite Hi, Hn, He. reflexivity.
Qed.

Lemma array_map_same {Y} var (proj : JsVal -> Js Y) l1 l2 :
  (forall v w, same_read v w -> proj v = proj w) ->
  Forall2 same_read l1 l2 ->
  array_map var proj (JArr l1) = array_map var proj (JArr l2).
Proof.
  intros Hproj H. unfold array_map.
  induction H as [|v w l1 l2 Hvw _ IH]; [reflexivity|].
  cbn [mapM]. rewrite (Hproj v w Hvw), IH. reflexivity.
Qed.

Section Alike.

Variables env1 env2 : Env.
Hypothesis answers_alike : forall url, alike (env1 url) (env2 url).

(** A request followed by a projection that cannot tell the payloads apart. *)
Lemma fetched_alike {B} (f : JsVal -> Js B) url :
  (forall l1 l2, Forall2 same_read l1 l2 -> f (JArr l1) = f (JArr l2)) ->
  (src <- httpGetJson env1 url ;; ret (Rx.map f src)) =
  (src <- httpGetJson env2 url ;; ret (Rx.map f src)).
Proof.
  intros Hf.
  destruct (answers_alike url) as [E|(st & l1 & l2 & E1 & E2 & Hl)].
  - rewrite (@httpGetJson_local env1 env2 url E). reflexivity.
  - destruct (ok (mkResponse st (Fulfilled (JArr l1)))) eqn:Hok.
    + assert (H1 : responds env1 url (JArr l1)) by (eexists; eauto).
      assert (H2 : responds env2 url (JArr l2)) by (eexists; eauto).
      rewrite (httpGetJson_responds H1), (httpGetJson_responds H2).
      cbn [bind ret app]. unfold Rx.map. cbn [items ending Rx.each].
      rewrite (Hf l1 l2 Hl). reflexivity.
    + rewrite (httpGetJson_status _ _ E1 Hok), (httpGetJson_status _ _ E2 Hok).
      reflexivity.
Qed.

Lemma selection_alike : selection env1 = selection env2.
Proof.
  unfold selection, getUsers.
  rewrite (fetched_alike (fun users => array_map "users" projectUser users) users_url
             (fun l1 l2 H => array_map_same "users" projectUser same_read_user H)).
  reflexivity.
Qed.

Lemma posts_of_alike o : posts_of env1 o = posts_of env2 o.
Proof.
  destruct o as [u|]; [|reflexivity]. unfold posts_of, getUserPosts, str.
  destruct (ToString (user_id u)) as [uid|]; [|reflexivity].
  rewrite !bind_ret_l. apply fetched_alike.
  intros l1 l2 H. rewrite (array_map_same "posts" projectPost same_read_post H).
  reflexivity.
Qed.

Lemma comments_of_alike up : comments_of env1 up = comments_of env2 up.
Proof.
  unfold comments_of, getPostComments, str.
  destruct (nth_error (up_posts up) 0) as [p|]; [|reflexivity].
  destruct (ToString (post_id p)) as [pid|]; [|reflexivity].
  destruct (ToString (post_title p)) as [t|]; [|reflexivity].
  repeat (first [rewrite bind_ret_l | rewrite bind_console_log]).
  rewrite (fetched_alike
             (fun comments =>
                cs <- array_map "comments" projectComment comments ;;
                ret (Some (mkResult (up_user up) p cs)))
             (comments_url pid)); [reflexivity|].
  intros l1 l2 H. rewrite (array_map_same "comments" projectComment same_read_comment H).
  reflexivity.
Qed.

End Alike.

(** X14. A run depends on the payloads only through what the projections
    read: two networks whose answers are the same, or are arrays of elements
    that agree on [id], [name], [email] and [title], give the same run,
    whatever else the elements hold and in whatever order. *)
Theorem unread_fields_do_not_matter (env1 env2 : Env) :
  (forall url, alike (env1 url) (env2 url)) ->
  subscription env1 = subscription env2.
Proof.
  intros H. apply chain_ext.
  - exact (@selection_alike env1 env2 H).
  - exact (@posts_of_alike env1 env2 H).
  - exact (@comments_of_alike env1 env2 H).
Qed.

Lemma unread_fields_do_not_matter_witness :
  (forall url, alike (scenario url) (scenario_full url)) /\
  subscription scenario = subscription scenario_full.
Proof.
  assert (H : forall url, alike (scenario url) (scenario_full url)).
  { intros url. unfold scenario, scenario_full, network. cbn [List.find fst snd].
    destruct (String.eqb users_url url);
      [right; exists 200%Z, [leanne], [leanne_full];
       repeat split; repeat constructor|].
    destruct (String.eqb (posts_url "1") url);
      [right; exists 200%Z, [post_t1], [post_t1_full];
       repeat split; repeat constructor|].
    destruct (String.eqb (comments_url "1") url);
      [right; exists 200%Z, [comment_c], [comment_c_full];
       repeat split; repeat constructor|].
    left. reflexivity. }
  split; [exact H|]. exact (@unread_fields_do_not_matter scenario scenario_full H).
Defined.

(** ** Ids and fields that print oddly, or not at all *)

(** X15. Users and posts are told apart by their id as long as it is an
    integer below [2^53] in magnitude: such an id is requested digit for
    digit, and two different ones never make the same request. Beyond, an
    id is the double nearest to it, and two ids can share their requests:
    [2^53] and [2^53 + 1] do. *)
Theorem safe_ids_get_their_own_request (env : Env) :
  (forall n, (- 2 ^ 53 < n < 2 ^ 53)%Z ->
     getUserPosts env (JNum n) = httpGetJson env (posts_url (decimal n)) /\
     getPostComments env (JNum n) = httpGetJson env (comments_url (decimal n))) /\
  (forall a b, (- 2 ^ 53 < a < 2 ^ 53)%Z -> (- 2 ^ 53 < b < 2 ^ 53)%Z -> a <> b ->
     fst (getUserPosts env (JNum a)) <> fst (getUserPosts env (JNum b)) /\
     fst (getPostComments env (JNum a)) <> fst (getPostComments env (JNum b))) /\
  getUserPosts env (JNum (2 ^ 53)) = getUserPosts env (JNum (2 ^ 53 + 1)) /\
  getPostComments env (JNum (2 ^ 53)) = getPostComments env (JNum (2 ^ 53 + 1)).
Proof.
  assert (Hsafe : forall n, (- 2 ^ 53 < n < 2 ^ 53)%Z ->
            getUserPosts env (JNum n) = httpGetJson env (posts_url (decimal n)) /\
            getPostComments env (JNum n) = httpGetJson env (comments_url (decimal n))).
  { intros n Hn. unfold getUserPosts, getPostComments, str. cbn [ToString].
    rewrite (Number_toString_safe Hn), !bind_ret_l. split; reflexivity. }
  assert (Hreq : forall url, fst (httpGetJson env url) = [Fetch url]).
  { intros url. destruct (settled env url) as (o & -> & _). reflexivity. }
  split; [exact Hsafe|]. split.
  - intros a b Ha Hb Hab.
    destruct (Hsafe a Ha) as [-> ->]. destruct (Hsafe b Hb) as [-> ->].
    rewrite !Hreq. destruct url_facts as (Hp & Hc & _).
    split; intros E; apply Hab, decimal_inj; [apply Hp | apply Hc]; congruence.
  - assert (E : Number_toString (2 ^ 53) = Number_toString (2 ^ 53 + 1))
      by (vm_compute; reflexivity).
    unfold getUserPosts, getPostComments, str. cbn [ToString]. rewrite E.
    split; reflexivity.
Qed.

Lemma safe_ids_get_their_own_request_witness :
  fst (getUserPosts scenario (JNum 1)) <> fst (getUserPosts scenario (JNum 2)) /\
  fst (getPostComments scenario (JNum 1)) <> fst (getPostComments scenario (JNum 2)).
Proof.
  refine (proj1 (proj2 (safe_ids_get_their_own_request scenario)) 1%Z 2%Z _ _ _).
  - split; reflexivity.
  - split; reflexivity.
  - discriminate.
Defined.

Lemma tap_throws {A} (f : A -> Js unit) evs a e :
  f a = throw e ->
  Rx.tap f (mkObs (effs evs ++ [Next a])%list Complete) = mkObs (effs evs) (Failed e).
Proof.
  intros H. unfold Rx.tap. cbn [items ending]. rewrite each_emits, H.
  cbn. rewrite app_nil_r. reflexivity.
Qed.

Lemma check_user_throws u0 :
  ~ user_ok u0 -> check_user (Some (user_of u0)) = throw cannot_print.
Proof.
  intros Hnot. unfold check_user, str. cbn [user_of user_id user_name user_email].
  destruct (ToString (field u0 "id")) as [i|] eqn:Hi; [|reflexivity].
  destruct (ToString (field u0 "name")) as [n|] eqn:Hn; [|reflexivity].
  destruct (ToString (field u0 "email")) as [e|] eqn:He; [|reflexivity].
  destruct Hnot. repeat split; eapply printable_text; eassumption.
Qed.

Lemma comments_of_throws (env : Env) u p0 ps :
  ~ post_ok p0 ->
  comments_of env (mkUserPosts u (List.map post_of (p0 :: ps))) = throw cannot_print.
Proof.
  intros Hnot. unfold comments_of, str.
  cbn [up_posts List.map nth_error post_of post_id post_title].
  destruct (ToString (field p0 "id")) as [i|] eqn:Hi; [|reflexivity].
  destruct (ToString (field p0 "title")) as [t|] eqn:Ht; [|reflexivity].
  destruct Hnot. split; eapply printable_text; eassumption.
Qed.

#[local] Arguments comments_of : simpl never.

(** X16. A checkpoint that cannot print what was selected ends the run. If
    a field of the selected user cannot be printed, the run reports the
    [TypeError] after the users count and requests no posts; if a field of
    the first post cannot be printed, it reports it after the posts count
    and requests no comments. Both runs receive [null] and finalize. *)
Theorem unprintable_selection_ends_the_run (env : Env) :
  (forall u0 us,
     responds env users_url (JArr (u0 :: us)) -> Forall readable (u0 :: us) ->
     ~ user_ok u0 ->
     subscription env =
       mkRun [Fetch users_url; ReadJson; ConsoleLog (users_line (S (List.length us)));
              ConsoleError error_label (message cannot_print);
              ConsoleLog finalize_line]
             [None] []) /\
  (forall u0 us p0 ps,
     users_stage_passed env u0 us ->
     responds env (posts_url (text (field u0 "id"))) (JArr (p0 :: ps)) ->
     Forall readable (p0 :: ps) -> ~ post_ok p0 ->
     subscription env =
       mkRun [Fetch users_url; ReadJson; ConsoleLog (users_line (S (List.length us)));
              ConsoleLog (user_line (text (field u0 "id")) (text (field u0 "name"))
                                    (text (field u0 "email")));
              Fetch (posts_url (text (field u0 "id"))); ReadJson;
              ConsoleLog (posts_line (S (List.length ps)));
              ConsoleError error_label (message cannot_print);
              ConsoleLog finalize_line]
             [None] []).
Proof.
  split.
  - intros u0 us Hu Hus Hnot.
    unfold subscription, flow, recovered, chain.
    rewrite (selection_of_payload Hu Hus). cbn [List.map nth_error List.length].
    change (mkObs [Eff ReadJson; Eff (ConsoleLog (users_line (S (List.length us))));
                   Next (Some (user_of u0))] Complete)
      with (mkObs (effs [ReadJson; ConsoleLog (users_line (S (List.length us)))] ++
                   [Next (Some (user_of u0))])%list Complete).
    rewrite (tap_throws check_user _ _ (check_user_throws Hnot)). reflexivity.
  - intros u0 us p0 ps (Hu & Hus & Hui & Hun & Hue) Hp Hps Hnot.
    unfold subscription, flow, recovered, chain, selection, getUsers.
    run_stage. unfold posts_of, getUserPosts. run_stage.
    pose proof (comments_of_throws env (user_of u0) ps Hnot) as Hthrow.
    cbn [List.map] in Hthrow. rewrite Hthrow. run_stage.
    rewrite !length_map. reflexivity.
Qed.

Lemma unprintable_selection_ends_the_run_witness :
  subscription scenario_user_shadowed =
    mkRun [Fetch users_url; ReadJson; ConsoleLog (users_line 1);
           ConsoleError error_label "Cannot convert object to primitive value";
           ConsoleLog finalize_line]
          [None] [] /\
  subscription scenario_post_shadowed =
    mkRun [Fetch users_url; ReadJson; ConsoleLog (users_line 1);
           ConsoleLog (user_line "1" "Leanne" "a@b.com");
           Fetch (posts_url "1"); ReadJson; ConsoleLog (posts_line 1);
           ConsoleError error_label "Cannot convert object to primitive value";
           ConsoleLog finalize_line]
          [None] [].
Proof.
  split.
  - refine (proj1 (unprintable_selection_ends_the_run scenario_user_shadowed)
              user_shadowed [] _ _ _).
    + apply responds_array. by_running.
    + repeat constructor.
    + intros (_ & H & _). discriminate H.
  - refine (proj2 (unprintable_selection_ends_the_run scenario_post_shadowed)
              leanne [] post_shadowed [] _ _ _ _).
    + repeat split; try (apply responds_array; by_running); repeat constructor.
    + apply responds_array. by_running.
    + repeat constructor.
    + intros (_ & H). discriminate H.
Defined.
